(** * go-eth2-client: the HTTP transport, the multi-client BeaconState call
      and the deneb codecs, as Rocq definitions

    The file follows the Go sources:
    - [Deneb]: [blindedblobsidecar_ssz.go] (fastssz codec of
      [BlindedBlobSidecar]) and [blockcontents_yaml.go] ([MarshalYAML]);
    - [HTTP]: the transport of package [http] ([get], [post], [get2],
      [populateContentType], [populateConsensusVersion]);
    - [Multi]: [BeaconState] of package [multi].

    Go values are modelled as the code has them: [[]byte] is [list byte],
    [uint64] and [int] are [Z], a [string] is a [string], [http.Header] is a
    finite map from keys to lists of values.  A Go function that returns
    [(T, error)] returns a pair whose second component is [None] for [nil];
    a method that mutates its receiver returns the receiver's new state. *)

From Stdlib Require Import ZArith Lia Strings.Byte Strings.String Strings.Ascii.
From stdpp Require Import gmap strings list.

Open Scope Z_scope.

(** ** Values shared by the packages *)

(** Go's [error] interface, closed over the values these sources build or
    pass on.  [http_Error] is the [Error] struct of package [http]
    (Method, Endpoint, StatusCode, Data); [ssz_ErrSize] is fastssz's
    [ErrSize]; [foreign] stands for an error made by code outside these
    sources (the network, [net/url], [encoding/json], the YAML encoder). *)
Inductive error : Type :=
| errors_New (msg : string)
| errors_Wrap (cause : error) (msg : string)
| fmt_Errorf (format : string) (arg : Z)
| http_Error (Method Endpoint : string) (StatusCode : Z) (Data : list byte)
| ssz_ErrSize
| foreign (origin : string) (detail : string).

#[global] Instance byte_eq_dec : EqDecision byte := Byte.byte_eq_dec.

(** [byte(v)]: the low eight bits of an integer. *)
Definition byte_of_Z (z : Z) : byte :=
  match Byte.of_N (Z.to_N (Z.land z 255)) with
  | Some b => b
  | None => x00
  end.

(** [uint64(b)] for a byte [b]. *)
Definition Z_of_byte (b : byte) : Z := Z.of_N (Byte.to_N b).

(** [bytes.HasPrefix]. *)
Fixpoint HasPrefix (s p : list byte) {struct p} : bool :=
  match p, s with
  | [], _ => true
  | _ :: _, [] => false
  | y :: p', x :: s' => if Byte.eqb x y then HasPrefix s' p' else false
  end.

(** [bytes.ReplaceAll s old new] for a non-empty [old = o :: os], which is
    what both call sites pass: the leftmost occurrences of [old] that do not
    overlap are replaced by [new], scanning from the left.  [fuel] bounds the
    number of positions visited; [length s] is enough. *)
Fixpoint replace_from (fuel : nat) (s : list byte) (o : byte) (os new : list byte)
  : list byte :=
  match fuel with
  | O => s
  | S fuel' =>
      match s with
      | [] => []
      | x :: s' =>
          if HasPrefix s (o :: os)
          then new ++ replace_from fuel' (drop (length os) s') o os new
          else x :: replace_from fuel' s' o os new
      end
  end.

Definition ReplaceAll (s : list byte) (o : byte) (os new : list byte) : list byte :=
  replace_from (length s) s o os new.

(** A double quote ([x22]) turned into a single quote ([x27]), any other
    byte kept. *)
Definition requote (c : byte) : byte := if decide (c = x22) then x27 else c.

(** ** Package deneb: the codecs *)
Module Deneb.

(** [BlindedBlobSidecar].  Its declaration is in [blindedblobsidecar.go],
    which is not among the sources: the fields and their widths are the ones
    the generated codec reads and writes (three 32-byte roots, three
    [uint64], two 48-byte KZG values).  A fixed-size array is a list whose
    length [valid] fixes. *)
Record BlindedBlobSidecar : Type := {
  BlockRoot : list byte;
  Index : Z;
  Slot : Z;
  BlockParentRoot : list byte;
  ProposerIndex : Z;
  BlobRoot : list byte;
  KzgCommitment : list byte;
  KzgProof : list byte
}.

(** The values of the Go type: arrays of the declared length, [uint64]s in
    range. *)
Definition valid (b : BlindedBlobSidecar) : Prop :=
  length (BlockRoot b) = 32%nat /\ 0 <= Index b < 2 ^ 64 /\
  0 <= Slot b < 2 ^ 64 /\ length (BlockParentRoot b) = 32%nat /\
  0 <= ProposerIndex b < 2 ^ 64 /\ length (BlobRoot b) = 32%nat /\
  length (KzgCommitment b) = 48%nat /\ length (KzgProof b) = 48%nat.

#[global] Instance valid_dec (b : BlindedBlobSidecar) : Decision (valid b).
Proof. unfold valid. apply _. Defined.

(** [binary.LittleEndian.PutUint64]: the eight bytes written. *)
Definition PutUint64 (v : Z) : list byte :=
  [ byte_of_Z v; byte_of_Z (Z.shiftr v 8); byte_of_Z (Z.shiftr v 16);
    byte_of_Z (Z.shiftr v 24); byte_of_Z (Z.shiftr v 32);
    byte_of_Z (Z.shiftr v 40); byte_of_Z (Z.shiftr v 48);
    byte_of_Z (Z.shiftr v 56) ].

(** [ssz.MarshalUint64(dst, i)]: [dst] grown by the eight bytes of [i]. *)
Definition MarshalUint64 (dst : list byte) (i : Z) : list byte :=
  dst ++ PutUint64 i.

(** [ssz.UnmarshallUint64(src)], which is [binary.LittleEndian.Uint64]:
    [None] is the run-time panic on fewer than eight bytes. *)
Definition UnmarshallUint64 (src : list byte) : option Z :=
  match src with
  | b0 :: b1 :: b2 :: b3 :: b4 :: b5 :: b6 :: b7 :: _ =>
      Some (Z.lor (Z.lor (Z.lor (Z.lor (Z.lor (Z.lor (Z.lor
        (Z_of_byte b0)
        (Z.shiftl (Z_of_byte b1) 8)) (Z.shiftl (Z_of_byte b2) 16))
        (Z.shiftl (Z_of_byte b3) 24)) (Z.shiftl (Z_of_byte b4) 32))
        (Z.shiftl (Z_of_byte b5) 40)) (Z.shiftl (Z_of_byte b6) 48))
        (Z.shiftl (Z_of_byte b7) 56))
  | _ => None
  end.

(** [buf[lo:hi]]: [None] is the run-time panic on bounds out of range. *)
Definition slice (buf : list byte) (lo hi : nat) : option (list byte) :=
  if decide (lo <= hi <= length buf)%nat
  then Some (take (hi - lo) (drop lo buf))
  else None.

(** [copy(dst, src)]: the new contents of [dst]; [min(len dst, len src)]
    bytes are copied. *)
Definition copy (dst src : list byte) : list byte :=
  take (length dst) src ++ drop (length src) dst.

(** [MarshalSSZTo]. *)
Definition MarshalSSZTo (b : BlindedBlobSidecar) (buf : list byte)
  : list byte * option error :=
  let dst := buf in
  let dst := dst ++ BlockRoot b in
  let dst := MarshalUint64 dst (Index b) in
  let dst := MarshalUint64 dst (Slot b) in
  let dst := dst ++ BlockParentRoot b in
  let dst := MarshalUint64 dst (ProposerIndex b) in
  let dst := dst ++ BlobRoot b in
  let dst := dst ++ KzgCommitment b in
  let dst := dst ++ KzgProof b in
  (dst, None).

(** [SizeSSZ]. *)
Definition SizeSSZ (b : BlindedBlobSidecar) : Z := 216.

(** [MarshalSSZ]: [ssz.MarshalSSZ(b)] allocates [SizeSSZ] bytes and calls
    [MarshalSSZTo] on the empty prefix of that buffer. *)
Definition MarshalSSZ (b : BlindedBlobSidecar) : list byte * option error :=
  MarshalSSZTo b [].

(** [UnmarshalSSZ] on receiver [b]: the receiver afterwards and the error
    returned; [None] is a run-time panic. *)
Definition UnmarshalSSZ (b : BlindedBlobSidecar) (buf : list byte)
  : option (BlindedBlobSidecar * option error) :=
  let err : option error := None in
  let size := Z.of_nat (length buf) in
  if decide (size <> 216) then Some (b, Some ssz_ErrSize)
  else
    s0 ← slice buf 0 32;
    let blockRoot := copy (BlockRoot b) s0 in
    index ← slice buf 32 40 ≫= UnmarshallUint64;
    slot ← slice buf 40 48 ≫= UnmarshallUint64;
    s3 ← slice buf 48 80;
    let blockParentRoot := copy (BlockParentRoot b) s3 in
    proposerIndex ← slice buf 80 88 ≫= UnmarshallUint64;
    s5 ← slice buf 88 120;
    let blobRoot := copy (BlobRoot b) s5 in
    s6 ← slice buf 120 168;
    let kzgCommitment := copy (KzgCommitment b) s6 in
    s7 ← slice buf 168 216;
    let kzgProof := copy (KzgProof b) s7 in
    Some ({| BlockRoot := blockRoot; Index := index; Slot := slot;
             BlockParentRoot := blockParentRoot;
             ProposerIndex := proposerIndex; BlobRoot := blobRoot;
             KzgCommitment := kzgCommitment; KzgProof := kzgProof |}, err).

(** *** [blockcontents_yaml.go] *)
Section Yaml.
(** [deneb.BeaconBlock] and [deneb.BlobSidecar] are declared in package
    [spec/deneb], and the encoder is goccy/go-yaml: all three are taken
    as given. *)
Variables BeaconBlock BlobSidecar : Type.

(** [BlockContents] (declared in [blockcontents.go]): the two fields
    [MarshalYAML] reads.  A pointer is an option. *)
Record BlockContents : Type := {
  Block : option BeaconBlock;
  BlobSidecars : list (option BlobSidecar)
}.

(** [blockContentsYAML]. *)
Record blockContentsYAML : Type := {
  yaml_Block : option BeaconBlock;
  yaml_BlobSidecars : list (option BlobSidecar)
}.

(** [yaml.MarshalWithOptions(v, yaml.Flow(flow))]. *)
Variable yaml_MarshalWithOptions :
  blockContentsYAML -> bool -> list byte * option error.

(** [MarshalYAML]: [x22] is the double quote, [x27] the single quote. *)
Definition MarshalYAML (b : BlockContents) : list byte * option error :=
  let '(yamlBytes, err) :=
    yaml_MarshalWithOptions
      {| yaml_Block := Block b; yaml_BlobSidecars := BlobSidecars b |} true in
  match err with
  | Some e => ([], Some e)
  | None => (ReplaceAll yamlBytes x22 [] [x27], None)
  end.
End Yaml.

End Deneb.

(** ** Package http: the transport *)
Module HTTP.

(** *** What a call leaves behind: log entries and trace-span calls *)

(** A field of a zerolog entry.  [FHex n] is [fmt.Sprintf("%02x", n)], kept
    unformatted. *)
Inductive Field : Type :=
| FStr (s : string)
| FInt (n : Z)
| FHex (n : Z)
| FBytes (data : list byte)
| FErr (e : error).

(** What a call emits, in order: zerolog entries (level, fields, message)
    and the calls made on the OpenTelemetry span. *)
Inductive Event : Type :=
| Log (level : Z) (fields : list (string * Field)) (msg : string)
| SpanStart (name : string)
| SpanAddEvent (name : string)
| SpanRecordError (e : error)
| SpanSetStatus (code : string) (format : string) (arg : Z)
| SpanSetAttributes (key value : string)
| SpanEnd.

(** How a Go call ends: it returns a value with a [nil] error, returns an
    error, or panics. *)
Inductive Res (A : Type) : Type :=
| Ok (a : A)
| Err (e : error)
| Panic (msg : string).
Arguments Ok {A} a.
Arguments Err {A} e.
Arguments Panic {A} msg.

(** A transport call: the events it emitted and how it ended. *)
Definition Tx (A : Type) : Type := list Event * Res A.

Definition emitted {A} (m : Tx A) : list Event := fst m.
Definition result {A} (m : Tx A) : Res A := snd m.

#[global] Instance Tx_ret : MRet Tx := λ A a, ([], Ok a).

#[global] Instance Tx_bind : MBind Tx := λ A B f m,
  match m with
  | (w, Ok a) => let '(w', r) := f a in (w ++ w', r)
  | (w, Err e) => (w, Err e)
  | (w, Panic msg) => (w, Panic msg)
  end.

Definition emit (ev : Event) : Tx unit := ([ev], Ok tt).
Definition fail {A} (e : error) : Tx A := ([], Err e).
Definition panic {A} (msg : string) : Tx A := ([], Panic msg).

(** [ctx, span := tracer.Start(ctx, name); defer span.End()]. *)
Definition with_span {A} (name : string) (body : Tx A) : Tx A :=
  let '(w, r) := body in (SpanStart name :: w ++ [SpanEnd], r).

(** *** zerolog *)

Definition TraceLevel : Z := -1.
Definition DebugLevel : Z := 0.
Definition InfoLevel : Z := 1.
Definition WarnLevel : Z := 2.

(** A logger: the least level it writes, and the fields of its context. *)
Record Logger : Type := {
  level : Z;
  context : list (string * Field)
}.

(** [log.With().Str(...)...Logger()]. *)
Definition With (l : Logger) (fields : list (string * Field)) : Logger :=
  {| level := level l; context := context l ++ fields |}.

(** [log.<Level>().Enabled()]. *)
Definition Enabled (l : Logger) (lvl : Z) : bool := bool_decide (level l <= lvl).

(** [log.<Level>().<fields>.Msg(msg)]: written when the level is enabled. *)
Definition Msg (l : Logger) (lvl : Z) (fields : list (string * Field))
    (msg : string) : Tx unit :=
  if Enabled l lvl then emit (Log lvl (context l ++ fields) msg) else mret tt.

(** Whether a logger whose least level is [lvl] writes an event: a log
    entry when its level is at least [lvl]; a span call always. *)
Definition written_at (lvl : Z) (ev : Event) : bool :=
  match ev with
  | Log l _ _ => bool_decide (lvl <= l)
  | _ => true
  end.

(** [m] ends as [m'] does and emits what [m'] emits, less the log entries
    below [lvl]. *)
Definition filtered_run {A} (lvl : Z) (m m' : Tx A) : Prop :=
  result m = result m' /\
  emitted m = List.filter (written_at lvl) (emitted m').

(** A log entry starts with the fields [ctx]; a span call is not
    concerned. *)
Definition carries (ctx : list (string * Field)) (ev : Event) : Prop :=
  match ev with
  | Log _ fields _ => exists rest, fields = ctx ++ rest
  | _ => True
  end.

(** *** net/http values *)

(** An [io.Reader], by what [io.ReadAll] gets out of it: the bytes read and
    the error that stopped the reading, if one did. *)
Record Reader : Type := {
  rd_data : list byte;
  rd_err : option error
}.

Definition io_ReadAll (r : Reader) : list byte * option error :=
  (rd_data r, rd_err r).

Definition bytes_NewReader (data : list byte) : Reader :=
  {| rd_data := data; rd_err := None |}.

(** [http.Request]: what these sources set.  [req_Body] is [None] for a
    [nil] body. *)
Record Request : Type := {
  req_Method : string;
  req_URL : string;
  req_Header : gmap string (list string);
  req_Body : option Reader
}.

(** [http.Response]: what these sources read. *)
Record Response : Type := {
  StatusCode : Z;
  Header : gmap string (list string);
  Body : Reader
}.

Definition MethodGet : string := "GET".
Definition MethodPost : string := "POST".
Definition StatusNotFound : Z := 404.
Definition StatusNoContent : Z := 204.

(** [strings.HasSuffix] and [strings.TrimSuffix]. *)
Definition HasSuffix (s suffix : string) : bool :=
  let n := String.length s in
  let m := String.length suffix in
  (m <=? n)%nat && String.eqb (String.substring (n - m) m s) suffix.

Definition TrimSuffix (s suffix : string) : string :=
  if HasSuffix s suffix
  then String.substring 0 (String.length s - String.length suffix) s
  else s.

(** *** encoding/json, as far as [responseMetadata] needs it *)

(** What the decoder sees at the top of a valid document when its target is
    a struct: [null], an object (its members in document order, each with
    its decoded key and the raw text of its value), or a value of another
    kind (array, string, number, boolean). *)
Inductive json_top : Type :=
| json_null
| json_object (members : list (string * list byte))
| json_other (kind : string).

(** *** What the transport takes as given *)

(** Declarations of this repository that are not among the sources
    ([ContentType] and [ParseFromMediaType] of package [http],
    [DataVersion] of package [spec]), and the Go library calls whose result
    the transport only passes on. *)
Class Env : Type := {
  (** [ContentType], its zero value, [ContentTypeJSON], [String()]. *)
  ContentType : Type;
  ContentType_eq_dec :: EqDecision ContentType;
  ContentType_zero : ContentType;
  ContentTypeJSON : ContentType;
  ContentType_String : ContentType -> string;
  (** [ParseFromMediaType(input)]: the value and the error returned. *)
  ParseFromMediaType : string -> ContentType * option error;
  (** [spec.DataVersion], its zero value, [spec.DataVersionUnknown]. *)
  DataVersion : Type;
  DataVersion_zero : DataVersion;
  DataVersionUnknown : DataVersion;
  (** [DataVersion.UnmarshalJSON(input)], a method on a pointer: the receiver afterwards and
      the error returned. *)
  DataVersion_UnmarshalJSON : DataVersion -> list byte -> DataVersion * option error;
  (** [net/url]: [url.Parse] and [URL.String]. *)
  URL : Type;
  url_Parse : string -> error + URL;
  URL_String : URL -> string;
  (** [http.NewRequestWithContext(ctx, method, url, body)]. *)
  http_NewRequestWithContext : string -> string -> option Reader -> error + Request;
  (** [textproto.CanonicalMIMEHeaderKey], which [Header.Add], [Header.Set]
      and [Header.Get] apply to the key. *)
  CanonicalMIMEHeaderKey : string -> string;
  (** The value [rand.Int31()] returns in this call. *)
  rand_Int31 : Z;
  (** [fmt.Sprintf("%q", s)], as bytes. *)
  fmt_Sprintf_q : string -> list byte;
  (** [encoding/json]'s scanner: a syntax error, or the top of the
      document. *)
  json_scan : list byte -> error + json_top;
  (** Whether an object key selects the struct field with the given JSON
      name (an exact match, or a match up to case folding). *)
  json_fieldMatch : string -> string -> bool
}.

Section Transport.
Context `{Env}.

(** [Header.Add], [Header.Set], [Header.Get]. *)
Definition Header_Add (h : gmap string (list string)) (key value : string)
  : gmap string (list string) :=
  let k := CanonicalMIMEHeaderKey key in
  <[k := default [] (h !! k) ++ [value]]> h.

Definition Header_Set (h : gmap string (list string)) (key value : string)
  : gmap string (list string) :=
  <[CanonicalMIMEHeaderKey key := [value]]> h.

Definition Header_Get (h : gmap string (list string)) (key : string) : string :=
  match h !! CanonicalMIMEHeaderKey key with
  | Some (v :: _) => v
  | _ => ""
  end.

Definition with_Header (req : Request) (h : gmap string (list string)) : Request :=
  {| req_Method := req_Method req; req_URL := req_URL req;
     req_Header := h; req_Body := req_Body req |}.

(** [Service] (declared in [service.go]): the fields the transport reads.
    [client] is [s.client.Do]: what the node, or the network, answers to a
    request.  [extraHeaders] lists the map's entries in the order the
    [range] statement visits them.  The timeout only bounds how long the
    call may take and is left out. *)
Record Service : Type := {
  log : Logger;
  address : string;
  base : URL;
  extraHeaders : list (string * string);
  client : Request -> error + Response
}.

(** [addExtraHeaders]. *)
Definition addExtraHeaders (s : Service) (req : Request) : Request :=
  with_Header req
    (foldl (λ h kv, Header_Add h kv.1 kv.2) (req_Header req) (extraHeaders s)).

(** [responseMetadata]. *)
Record responseMetadata : Type := {
  Version : DataVersion
}.

(** [httpResponse]. *)
Record httpResponse : Type := {
  statusCode : Z;
  contentType : ContentType;
  consensusVersion : DataVersion;
  body : list byte
}.

Definition set_contentType (ct : ContentType) (res : httpResponse) : httpResponse :=
  {| statusCode := statusCode res; contentType := ct;
     consensusVersion := consensusVersion res; body := body res |}.

Definition set_consensusVersion (v : DataVersion) (res : httpResponse) : httpResponse :=
  {| statusCode := statusCode res; contentType := contentType res;
     consensusVersion := v; body := body res |}.

Definition set_body (data : list byte) (res : httpResponse) : httpResponse :=
  {| statusCode := statusCode res; contentType := contentType res;
     consensusVersion := consensusVersion res; body := data |}.

(** The members of an object decoded into [responseMetadata], in order:
    a member whose key selects the field [version] is handed to
    [DataVersion.UnmarshalJSON] with its raw text, and the first error stops
    the decoding; other members are skipped. *)
Fixpoint decode_members (members : list (string * list byte))
    (metadata : responseMetadata) : responseMetadata * option error :=
  match members with
  | [] => (metadata, None)
  | (key, raw) :: rest =>
      if json_fieldMatch "version" key then
        let '(v, err) := DataVersion_UnmarshalJSON (Version metadata) raw in
        match err with
        | Some e => ({| Version := v |}, Some e)
        | None => decode_members rest {| Version := v |}
        end
      else decode_members rest metadata
  end.

(** [json.Unmarshal(data, &metadata)]: the input is checked for syntax
    first; [null] leaves a struct as it is; an object is decoded member by
    member; any other value is an [UnmarshalTypeError]. *)
Definition json_Unmarshal (data : list byte) (metadata : responseMetadata)
  : responseMetadata * option error :=
  match json_scan data with
  | inl e => (metadata, Some e)
  | inr json_null => (metadata, None)
  | inr (json_object members) => decode_members members metadata
  | inr (json_other kind) =>
      (metadata, Some (foreign "json.UnmarshalTypeError" kind))
  end.

(** [populateContentType]: [res] afterwards and the error returned. *)
Definition populateContentType (res : httpResponse) (resp : Response)
  : httpResponse * option error :=
  match Header resp !! "Content-Type" with
  | None => (res, Some (errors_New "no content type supplied in response"))
  | Some respContentTypes =>
      match respContentTypes with
      | [mediaType] =>
          let '(ct, err) := ParseFromMediaType mediaType in
          (set_contentType ct res, err)
      | _ =>
          (res, Some (fmt_Errorf "malformed content type (%d entries)"
                        (Z.of_nat (length respContentTypes))))
      end
  end.

(** [populateConsensusVersion]: [res] afterwards and the error returned. *)
Definition populateConsensusVersion (res : httpResponse) (resp : Response)
  : httpResponse * option error :=
  let res := set_consensusVersion DataVersionUnknown res in
  match Header resp !! "Eth-Consensus-Version" with
  | None =>
      if decide (contentType res <> ContentTypeJSON) then
        (res, Some (errors_New "no consensus version header"))
      else
        let metadata := {| Version := DataVersion_zero |} in
        let '(metadata, err) := json_Unmarshal (body res) metadata in
        match err with
        | Some e =>
            (res, Some (errors_Wrap e
               "no consensus version header and failed to parse response"))
        | None => (set_consensusVersion (Version metadata) res, None)
        end
  | Some respConsensusVersions =>
      match respConsensusVersions with
      | [version] =>
          let '(v, err) :=
            DataVersion_UnmarshalJSON (consensusVersion res)
              (fmt_Sprintf_q version) in
          let res := set_consensusVersion v res in
          match err with
          | Some e => (res, Some (errors_Wrap e "failed to parse consensus version"))
          | None => (res, None)
          end
      | _ =>
          (res, Some (fmt_Errorf "malformed consensus version (%d entries)"
                        (Z.of_nat (length respConsensusVersions))))
      end
  end.

(** The logger of one call:
    [s.log.With().Str("id", ...).Str("address", ...).Str("endpoint", ...)]. *)
Definition call_log (s : Service) (endpoint : string) : Logger :=
  With (log s) [("id", FHex rand_Int31); ("address", FStr (address s));
                ("endpoint", FStr endpoint)].

(** The address a call goes to: the base with a trailing slash removed,
    then the endpoint. *)
Definition call_url (s : Service) (endpoint : string) : string :=
  String.append (TrimSuffix (URL_String (base s)) "/") endpoint.

(** The request [get] sends, when it gets as far as sending one: the
    address is parsed, the request is made, the service's extra headers are
    added, then [Accept]. *)
Definition get_request (s : Service) (endpoint : string) : error + Request :=
  match url_Parse (call_url s endpoint) with
  | inl err => inl (errors_Wrap err "invalid endpoint")
  | inr url =>
      match http_NewRequestWithContext MethodGet (URL_String url) None with
      | inl err => inl (errors_Wrap err "failed to create GET request")
      | inr req =>
          let req := addExtraHeaders s req in
          inr (with_Header req
                 (Header_Set (req_Header req) "Accept" "application/json"))
      end
  end.

(** The request [post] sends: [Content-Type], [Accept], and a [User-Agent]
    when none is set. *)
Definition post_request (s : Service) (endpoint : string) (body : option Reader)
  : error + Request :=
  match url_Parse (call_url s endpoint) with
  | inl err => inl (errors_Wrap err "invalid endpoint")
  | inr url =>
      match http_NewRequestWithContext MethodPost (URL_String url) body with
      | inl err => inl (errors_Wrap err "failed to create POST request")
      | inr req =>
          let req := addExtraHeaders s req in
          let req := with_Header req
            (Header_Set (req_Header req) "Content-Type" "application/json") in
          let req := with_Header req
            (Header_Set (req_Header req) "Accept" "application/json") in
          inr (if decide (Header_Get (req_Header req) "User-Agent" = "")
               then with_Header req
                      (Header_Set (req_Header req) "User-Agent"
                         "go-eth2-client/0.18.3")
               else req)
      end
  end.

(** The request [get2] sends: SSZ preferred, JSON if not. *)
Definition get2_request (s : Service) (endpoint : string) : error + Request :=
  match url_Parse (call_url s endpoint) with
  | inl err => inl (errors_Wrap err "invalid endpoint")
  | inr url =>
      match http_NewRequestWithContext MethodGet (URL_String url) None with
      | inl err => inl (errors_Wrap err "failed to create GET request")
      | inr req =>
          let req := addExtraHeaders s req in
          inr (with_Header req
                 (Header_Set (req_Header req) "Accept"
                    "application/octet-stream;q=1,application/json;q=0.9"))
      end
  end.

(** [get]: the reader returned is [None] for Go's [nil]. *)
Definition get (s : Service) (endpoint : string) : Tx (option Reader) :=
  let log := call_log s endpoint in
  Msg log TraceLevel [] "GET request";;
  match get_request s endpoint with
  | inl err => fail err
  | inr req =>
  match client s req with
  | inl err => fail (errors_Wrap err "failed to call GET endpoint")
  | inr resp =>
      if decide (StatusCode resp = StatusNotFound) then mret None
      else
        let '(data, err) := io_ReadAll (Body resp) in
        match err with
        | Some err => fail (errors_Wrap err "failed to read GET response")
        | None =>
            let statusFamily := Z.quot (StatusCode resp) 100 in
            if decide (statusFamily <> 2) then
              Msg log TraceLevel
                [("status_code", FInt (StatusCode resp)); ("data", FBytes data)]
                "GET failed";;
              fail (http_Error MethodGet endpoint (StatusCode resp) data)
            else
              Msg log TraceLevel [("response", FBytes data)] "GET response";;
              mret (Some (bytes_NewReader data))
        end
  end end.

(** The first lines of [post]: with trace logging enabled the request body
    is read to the end, logged, and replaced by a reader over the bytes
    read.  [body] is [None] for a [nil] reader, on which [io.ReadAll]
    panics. *)
Definition post_body (log : Logger) (body : option Reader) : Tx (option Reader) :=
  if Enabled log TraceLevel then
    match body with
    | None => panic "invalid memory address or nil pointer dereference"
    | Some r =>
        let '(bodyBytes, err) := io_ReadAll r in
        match err with
        | Some _ => fail (errors_New "failed to read request body")
        | None =>
            Msg log TraceLevel [("body", FBytes bodyBytes)] "POST request";;
            mret (Some (bytes_NewReader bodyBytes))
        end
    end
  else mret body.

(** [post]. *)
Definition post (s : Service) (endpoint : string) (body : option Reader)
  : Tx Reader :=
  let log := call_log s endpoint in
  body ← post_body log body;
  match post_request s endpoint body with
  | inl err => fail err
  | inr req =>
  match client s req with
  | inl err => fail (errors_Wrap err "failed to call POST endpoint")
  | inr resp =>
      let '(data, err) := io_ReadAll (Body resp) in
      match err with
      | Some err => fail (errors_Wrap err "failed to read POST response")
      | None =>
          let statusFamily := Z.quot (StatusCode resp) 100 in
          if decide (statusFamily <> 2) then
            Msg log TraceLevel
              [("status_code", FInt (StatusCode resp)); ("data", FBytes data)]
              "POST failed";;
            fail (http_Error MethodPost endpoint (StatusCode resp) data)
          else
            Msg log TraceLevel [("response", FBytes data)] "POST response";;
            mret (bytes_NewReader data)
      end
  end end.

(** [get2] from the response on (from [log = log.With().Int("status_code",
    ...)] to the end of the function). *)
Definition get2_response (log : Logger) (endpoint : string) (resp : Response)
  : Tx httpResponse :=
  let log := With log [("status_code", FInt (StatusCode resp))] in
  let res := {| statusCode := StatusCode resp; contentType := ContentType_zero;
                consensusVersion := DataVersion_zero; body := [] |} in
  if decide (StatusCode resp = StatusNotFound) then
    emit (SpanRecordError (errors_New "endpoint not found"));;
    Msg log DebugLevel [] "Endpoint not found";;
    mret res
  else if decide (StatusCode resp = StatusNoContent) then
    emit (SpanAddEvent "Received empty response");;
    Msg log TraceLevel [] "Endpoint returned no content";;
    mret res
  else
    let '(data, err) := io_ReadAll (Body resp) in
    let res := set_body data res in
    match err with
    | Some err =>
        emit (SpanRecordError err);;
        Msg log WarnLevel [("error", FErr err)] "Failed to read body";;
        fail (errors_Wrap err "failed to read body")
    | None =>
        let statusFamily := Z.quot (StatusCode resp) 100 in
        if decide (statusFamily <> 2) then
          emit (SpanSetStatus "Error" "Status code %d" (StatusCode resp));;
          let trimmedResponse :=
            ReplaceAll (ReplaceAll (body res) x0a [] []) x0d [] [] in
          Msg log DebugLevel
            [("status_code", FInt (StatusCode resp));
             ("response", FBytes trimmedResponse)] "GET failed";;
          fail (http_Error MethodGet endpoint (StatusCode resp) (body res))
        else
          let '(res, err) := populateContentType res resp in
          res ← match err with
                | Some err =>
                    Msg log DebugLevel [("error", FErr err)]
                      "Failed to obtain content type; assuming JSON";;
                    mret (set_contentType ContentTypeJSON res)
                | None => mret res
                end;
          emit (SpanSetAttributes "content-type"
                  (ContentType_String (contentType res)));;
          let '(res, err) := populateConsensusVersion res resp in
          match err with
          | Some err => fail (errors_Wrap err "failed to parse consensus version")
          | None => mret res
          end
    end.

(** [get2]. *)
Definition get2 (s : Service) (endpoint : string) : Tx httpResponse :=
  with_span "get2"
    (let log := call_log s endpoint in
     Msg log TraceLevel [] "GET request";;
     match get2_request s endpoint with
     | inl err => fail err
     | inr req =>
         emit (SpanAddEvent "Sending request");;
         match client s req with
         | inl err =>
             emit (SpanRecordError (errors_New "Request failed"));;
             fail (errors_Wrap err "failed to call GET endpoint")
         | inr resp => get2_response log endpoint resp
         end
     end).

(** [get2] gets the response [resp] for [endpoint]: the address parses, the
    request is built, and the client answers it with [resp]. *)
Definition get2_receives (s : Service) (endpoint : string) (resp : Response)
  : Prop :=
  exists req, get2_request s endpoint = inr req /\ client s req = inr resp.

(** [post] gets the response [resp]: the body passes the first lines, the
    request is built, and the client answers it with [resp]. *)
Definition post_receives (s : Service) (endpoint : string)
    (body : option Reader) (resp : Response) : Prop :=
  exists body' req,
    result (post_body (call_log s endpoint) body) = Ok body' /\
    post_request s endpoint body' = inr req /\
    client s req = inr resp.

(** [get] gets the response [resp] for [endpoint]. *)
Definition get_receives (s : Service) (endpoint : string) (resp : Response)
  : Prop :=
  exists req, get_request s endpoint = inr req /\ client s req = inr resp.

(** The envelope [get2] holds once the body is read, with content type
    [ct]. *)
Definition envelope (resp : Response) (ct : ContentType) : httpResponse :=
  {| statusCode := StatusCode resp; contentType := ct;
     consensusVersion := DataVersion_zero; body := rd_data (Body resp) |}.

(** The content type [get2] settles on: the one [populateContentType]
    finds, and [ContentTypeJSON] when it returns an error. *)
Definition resolved_contentType (resp : Response) : ContentType :=
  match populateContentType (envelope resp ContentType_zero) resp with
  | (res, None) => contentType res
  | (_, Some _) => ContentTypeJSON
  end.

(** The same service with another log level. *)
Definition with_level (lvl : Z) (s : Service) : Service :=
  {| log := {| level := lvl; context := context (log s) |};
     address := address s; base := base s;
     extraHeaders := extraHeaders s; client := client s |}.

End Transport.
End HTTP.

(** ** Package multi: [BeaconState] *)
Module Multi.

(** How a Go call with results [(T, error)] ends. *)
Inductive outcome (A : Type) : Type :=
| Returns (v : A) (err : option error)
| Panics (msg : string).
Arguments Returns {A} v err.
Arguments Panics {A} msg.

Section BeaconState.
(** [spec.VersionedBeaconState] and the multi [Service] are declared
    outside the sources. *)
Variable VersionedBeaconState : Type.
Variable Service : Type.

(** The dynamic value of an [interface{}] that is not [nil]: a
    [*spec.VersionedBeaconState] (the pointer may be [nil]), or a value of
    another type. *)
Inductive dynamic : Type :=
| BeaconStatePtr (p : option VersionedBeaconState)
| OtherValue (type : string).

(** An [interface{}]: [None] is [nil]. *)
Definition iface : Type := option dynamic.

(** A [consensusclient.Service]: its [BeaconState] method when it
    implements [consensusclient.BeaconStateProvider]. *)
Record Client : Type := {
  asBeaconStateProvider :
    option (string -> outcome (option VersionedBeaconState))
}.

(** [doCall] (in [service.go], not among the sources), called with a
    [nil] error handler. *)
Variable doCall : Service -> (Client -> outcome iface) -> outcome iface.

(** The function literal [BeaconState] hands to [doCall]. *)
Definition beaconStateCall (stateID : string) (client : Client) : outcome iface :=
  match asBeaconStateProvider client with
  | None => Panics "interface conversion: not a BeaconStateProvider"
  | Some provider =>
      match provider stateID with
      | Panics msg => Panics msg
      | Returns _ (Some err) => Returns None (Some err)
      | Returns beaconState None =>
          Returns (Some (BeaconStatePtr beaconState)) None
      end
  end.

(** [BeaconState]. *)
Definition BeaconState (s : Service) (stateID : string)
  : outcome (option VersionedBeaconState) :=
  match doCall s (beaconStateCall stateID) with
  | Panics msg => Panics msg
  | Returns _ (Some err) => Returns None (Some err)
  | Returns None None => Returns None None
  | Returns (Some (BeaconStatePtr p)) None => Returns p None
  | Returns (Some (OtherValue _)) None =>
      Panics "interface conversion: not a *spec.VersionedBeaconState"
  end.
End BeaconState.

End Multi.

(** ** A reference environment

    One instance of [HTTP.Env], used to run the transport on concrete
    responses.  The properties below hold for every environment; this one
    only supplies examples. *)
Module Reference.
Import HTTP.

(** Modelled from the spec: [ContentType] of package [http], whose
    declaration is not among the sources.  The spec has
    "contentType ∈ {Binary, JSON, Unknown}"; the source names the JSON one
    [ContentTypeJSON]. *)
Inductive RefContentType : Type :=
| RefContentTypeUnknown
| RefContentTypeSSZ
| RefContentTypeJSON.

#[global] Instance RefContentType_eq_dec : EqDecision RefContentType.
Proof. solve_decision. Defined.

Definition RefContentType_String (ct : RefContentType) : string :=
  match ct with
  | RefContentTypeUnknown => "Unknown"
  | RefContentTypeSSZ => "SSZ"
  | RefContentTypeJSON => "JSON"
  end.

(** Modelled from the spec: [ParseFromMediaType], which is not among the
    sources.  The spec has the content type determined "from the
    response's declared media type", binary or JSON, anything else being
    unrecognized. *)
Definition RefParseFromMediaType (input : string) : RefContentType * option error :=
  if String.eqb input "application/octet-stream" then (RefContentTypeSSZ, None)
  else if String.eqb input "application/json" then (RefContentTypeJSON, None)
  else (RefContentTypeUnknown, Some (errors_New "unrecognised content type")).

(** Modelled from the spec: [spec.DataVersion], which is not among the
    sources: "an enumerated tag identifying which versioned variant of a
    domain schema the payload uses, or Unknown". *)
Inductive RefDataVersion : Type :=
| RefDataVersionUnknown
| RefDataVersionPhase0
| RefDataVersionAltair
| RefDataVersionBellatrix
| RefDataVersionCapella
| RefDataVersionDeneb.

(** A Go string as bytes and back. *)
Definition bytes_of (s : string) : list byte := String.list_byte_of_string s.
Definition string_of (l : list byte) : string := String.string_of_list_byte l.

(** An ASCII letter in lower case. *)
Definition lower_byte (b : byte) : byte :=
  let n := Byte.to_N b in
  if ((65 <=? n) && (n <=? 90))%N
  then match Byte.of_N (n + 32) with Some c => c | None => b end
  else b.

Definition quoted (s : string) : list byte := x22 :: bytes_of s ++ [x22].

(** Modelled from the spec: [DataVersion.UnmarshalJSON], which is not among
    the sources: the tag is read from a quoted name, in any case; another
    input is an error and leaves the receiver as it was. *)
Definition RefDataVersion_UnmarshalJSON (d : RefDataVersion) (input : list byte)
  : RefDataVersion * option error :=
  let name := lower_byte <$> input in
  if decide (name = quoted "phase0") then (RefDataVersionPhase0, None)
  else if decide (name = quoted "altair") then (RefDataVersionAltair, None)
  else if decide (name = quoted "bellatrix") then (RefDataVersionBellatrix, None)
  else if decide (name = quoted "capella") then (RefDataVersionCapella, None)
  else if decide (name = quoted "deneb") then (RefDataVersionDeneb, None)
  else (d, Some (errors_New "unrecognised data version")).

(** *** A JSON scanner

    It accepts the JSON grammar (RFC 8259) over bytes and, for an object at
    the top, lists each member's key and the text of its value.  A key is
    returned as written between its quotes when it has no escape; a key with
    an escape is returned with the escape left in place, which no field
    name matches. *)

Definition is_ws (b : byte) : bool :=
  match b with x20 | x09 | x0a | x0d => true | _ => false end.

Definition is_digit (b : byte) : bool :=
  let n := Byte.to_N b in ((48 <=? n) && (n <=? 57))%N.

Definition is_hex (b : byte) : bool :=
  let n := Byte.to_N b in
  (((48 <=? n) && (n <=? 57)) || ((65 <=? n) && (n <=? 70))
   || ((97 <=? n) && (n <=? 102)))%N.

Fixpoint skip_ws (s : list byte) : list byte :=
  match s with
  | b :: r => if is_ws b then skip_ws r else s
  | [] => []
  end.

Fixpoint skip_digits (s : list byte) : list byte :=
  match s with
  | b :: r => if is_digit b then skip_digits r else s
  | [] => []
  end.

(** One or more digits. *)
Definition digits1 (s : list byte) : option (list byte) :=
  match s with
  | b :: r => if is_digit b then Some (skip_digits r) else None
  | [] => None
  end.

(** The rest of the input after a number. *)
Definition scan_number (s : list byte) : option (list byte) :=
  let s := match s with x2d :: r => r | _ => s end in
  s ← match s with
      | x30 :: r => Some r
      | _ => digits1 s
      end;
  s ← match s with
      | x2e :: r => digits1 r
      | _ => Some s
      end;
  match s with
  | x65 :: r | x45 :: r =>
      digits1 (match r with x2b :: r' | x2d :: r' => r' | _ => r end)
  | _ => Some s
  end.

(** The rest of the input after a string's closing quote, and the text
    between the quotes; the input starts after the opening quote. *)
Fixpoint scan_string (s : list byte) : option (list byte * list byte) :=
  match s with
  | [] => None
  | x22 :: r => Some ([], r)
  | x5c :: e :: r =>
      match e with
      | x22 | x5c | x2f | x62 | x66 | x6e | x72 | x74 =>
          '(text, rest) ← scan_string r; Some (x5c :: e :: text, rest)
      | x75 =>
          match r with
          | h1 :: h2 :: h3 :: h4 :: r' =>
              if is_hex h1 && is_hex h2 && is_hex h3 && is_hex h4
              then '(text, rest) ← scan_string r';
                   Some (x5c :: e :: h1 :: h2 :: h3 :: h4 :: text, rest)
              else None
          | _ => None
          end
      | _ => None
      end
  | b :: r =>
      if (Byte.to_N b <? 32)%N then None
      else '(text, rest) ← scan_string r; Some (b :: text, rest)
  end.

(** The rest of the input after one value ([scan_value]), after the members
    of an object up to its closing brace ([scan_members]) and after the
    elements of an array up to its closing bracket ([scan_elements]).  Each
    call reads at least one byte, so [S (length s)] is fuel enough. *)
Fixpoint scan_value (fuel : nat) (s : list byte) : option (list byte) :=
  match fuel with
  | O => None
  | S fuel =>
      match s with
      | x7b :: r =>
          match skip_ws r with
          | x7d :: r' => Some r'
          | r' => scan_members fuel r'
          end
      | x5b :: r =>
          match skip_ws r with
          | x5d :: r' => Some r'
          | r' => scan_elements fuel r'
          end
      | x22 :: r => snd <$> scan_string r
      | x74 :: x72 :: x75 :: x65 :: r => Some r
      | x66 :: x61 :: x6c :: x73 :: x65 :: r => Some r
      | x6e :: x75 :: x6c :: x6c :: r => Some r
      | _ => scan_number s
      end
  end
with scan_members (fuel : nat) (s : list byte) : option (list byte) :=
  match fuel with
  | O => None
  | S fuel =>
      match s with
      | x22 :: r =>
          '(_, r) ← scan_string r;
          match skip_ws r with
          | x3a :: r =>
              r ← scan_value fuel (skip_ws r);
              match skip_ws r with
              | x2c :: r => scan_members fuel (skip_ws r)
              | x7d :: r => Some r
              | _ => None
              end
          | _ => None
          end
      | _ => None
      end
  end
with scan_elements (fuel : nat) (s : list byte) : option (list byte) :=
  match fuel with
  | O => None
  | S fuel =>
      r ← scan_value fuel s;
      match skip_ws r with
      | x2c :: r => scan_elements fuel (skip_ws r)
      | x5d :: r => Some r
      | _ => None
      end
  end.

(** The members of the object at the top, up to its closing brace: keys,
    the text of each value, and the rest of the input. *)
Fixpoint top_members (fuel : nat) (s : list byte)
  : option (list (string * list byte) * list byte) :=
  match fuel with
  | O => None
  | S fuel =>
      match s with
      | x22 :: r =>
          '(key, r) ← scan_string r;
          match skip_ws r with
          | x3a :: r =>
              let v := skip_ws r in
              r ← scan_value (S (length v)) v;
              let raw := take (length v - length r) v in
              match skip_ws r with
              | x2c :: r =>
                  '(rest, r) ← top_members fuel (skip_ws r);
                  Some ((string_of key, raw) :: rest, r)
              | x7d :: r => Some ([(string_of key, raw)], r)
              | _ => None
              end
          | _ => None
          end
      | _ => None
      end
  end.

Definition syntax_error : error := foreign "json.SyntaxError" "invalid JSON".

(** Nothing but white space may follow the value. *)
Definition at_end (rest : list byte) (top : json_top) : error + json_top :=
  match skip_ws rest with
  | [] => inr top
  | _ => inl syntax_error
  end.

(** What a value is, by the byte it starts with. *)
Definition top_of (b : byte) : json_top :=
  if decide (b = x6e) then json_null
  else if decide (b = x5b) then json_other "array"
  else if decide (b = x22) then json_other "string"
  else if decide (b = x74 \/ b = x66) then json_other "bool"
  else json_other "number".

Definition ref_json_scan (data : list byte) : error + json_top :=
  let s := skip_ws data in
  match s with
  | [] => inl syntax_error
  | b :: r =>
      if decide (b = x7b) then
        match skip_ws r with
        | [] => inl syntax_error
        | c :: r' =>
            if decide (c = x7d) then at_end r' (json_object [])
            else
              match top_members (S (length r)) (c :: r') with
              | Some (members, rest) => at_end rest (json_object members)
              | None => inl syntax_error
              end
        end
      else
        match scan_value (S (length s)) s with
        | Some rest => at_end rest (top_of b)
        | None => inl syntax_error
        end
  end.

(** A key selects a field when the two are equal up to the case of ASCII
    letters. *)
Definition ref_json_fieldMatch (field key : string) : bool :=
  bool_decide (lower_byte <$> bytes_of field = lower_byte <$> bytes_of key).

(** The environment: addresses are kept as written, a new request has no
    header, header keys are taken as canonical already, and [%q] quotes a
    string that needs no escape. *)
Definition RefEnv : Env := {|
  ContentType := RefContentType;
  ContentType_zero := RefContentTypeUnknown;
  ContentTypeJSON := RefContentTypeJSON;
  ContentType_String := RefContentType_String;
  ParseFromMediaType := RefParseFromMediaType;
  DataVersion := RefDataVersion;
  DataVersion_zero := RefDataVersionUnknown;
  DataVersionUnknown := RefDataVersionUnknown;
  DataVersion_UnmarshalJSON := RefDataVersion_UnmarshalJSON;
  URL := string;
  url_Parse := inr;
  URL_String := id;
  http_NewRequestWithContext := λ method url body,
    inr {| req_Method := method; req_URL := url; req_Header := ∅;
           req_Body := body |};
  CanonicalMIMEHeaderKey := id;
  rand_Int31 := 0;
  fmt_Sprintf_q := quoted;
  json_scan := ref_json_scan;
  json_fieldMatch := ref_json_fieldMatch
|}.

(** A service whose node answers with [resp] every request whose body,
    if it has one, can be read to the end; the client fails on another. *)
Definition service_answering (lvl : Z) (resp : Response) : @Service RefEnv :=
  {| log := {| level := lvl; context := [] |};
     address := "http://localhost:5052";
     base := "http://localhost:5052/" : @URL RefEnv;
     extraHeaders := [];
     client := λ req,
       match req_Body req with
       | Some {| rd_err := Some _ |} =>
           inl (foreign "net/http" "request body could not be read")
       | _ => inr resp
       end |}.

(** An envelope of the reference environment. *)
Definition ref_httpResponse (code : Z) (ct : RefContentType)
    (v : RefDataVersion) (data : list byte) : @httpResponse RefEnv :=
  @Build_httpResponse RefEnv code ct v data.

Definition response (code : Z) (header : list (string * list string))
    (data : list byte) : Response :=
  {| StatusCode := code; Header := list_to_map header;
     Body := bytes_NewReader data |}.

End Reference.


(** ** Example values *)
Module Examples.
Import HTTP Reference.

(** The zero value of [BlindedBlobSidecar], and a sidecar with every field
    set. *)
Definition zero_sidecar : Deneb.BlindedBlobSidecar :=
  {| Deneb.BlockRoot := replicate 32 x00; Deneb.Index := 0; Deneb.Slot := 0;
     Deneb.BlockParentRoot := replicate 32 x00; Deneb.ProposerIndex := 0;
     Deneb.BlobRoot := replicate 32 x00;
     Deneb.KzgCommitment := replicate 48 x00;
     Deneb.KzgProof := replicate 48 x00 |}.

Definition some_sidecar : Deneb.BlindedBlobSidecar :=
  {| Deneb.BlockRoot := replicate 32 xab; Deneb.Index := 3;
     Deneb.Slot := 2 ^ 64 - 1;
     Deneb.BlockParentRoot := replicate 32 x01;
     Deneb.ProposerIndex := 123456;
     Deneb.BlobRoot := replicate 32 xff;
     Deneb.KzgCommitment := replicate 48 xc0;
     Deneb.KzgProof := replicate 48 x7f |}.

(** An encoder whose output quotes a string. *)
Definition quoting_encoder (v : Deneb.blockContentsYAML unit unit) (flow : bool)
  : list byte * option error :=
  (bytes_of "{block: " ++ quoted "0x01" ++ bytes_of ", blob_sidecars: []}", None).

Definition empty_contents : Deneb.BlockContents unit unit :=
  Deneb.Build_BlockContents unit unit None [].

(** A client whose node does not have the state asked for, and a dispatch
    over that one client. *)
Definition client_without_state : Multi.Client unit :=
  Multi.Build_Client unit (Some (λ _, Multi.Returns None None)).

Definition single_client_doCall (s : Multi.Client unit)
    (call : Multi.Client unit -> Multi.outcome (Multi.iface unit))
  : Multi.outcome (Multi.iface unit) :=
  call s.

(** Responses of a node. *)
Definition state_endpoint : string := "/eth/v2/debug/beacon/states/head".

Definition not_found : Response :=
  response 404 [("Content-Type", ["application/json"])]
    (bytes_of "{}").

Definition server_error : Response :=
  response 500 [] (bytes_of "internal error").

Definition ssz_without_version : Response :=
  response 200 [("Content-Type", ["application/octet-stream"])]
    [x01; x02; x03].

Definition ssz_with_version : Response :=
  response 200 [("Content-Type", ["application/octet-stream"]);
                ("Eth-Consensus-Version", ["capella"])]
    [x01; x02; x03].

Definition two_content_types : Response :=
  response 200 [("Content-Type", ["application/json"; "text/plain"]);
                ("Eth-Consensus-Version", ["deneb"])]
    (bytes_of "{}").

(** The body [{"data":{}}]. *)
Definition json_without_version : Response :=
  response 200 [("Content-Type", ["application/json"])]
    (bytes_of "{" ++ quoted "data" ++ bytes_of ":{}}").

(** The body [{"version":"deneb","data":{}}]. *)
Definition json_with_version : Response :=
  response 200 [("Content-Type", ["application/json"])]
    (bytes_of "{" ++ quoted "version" ++ bytes_of ":" ++ quoted "deneb"
     ++ bytes_of "," ++ quoted "data" ++ bytes_of ":{}}").

(** A request body that reads to the end, and one whose reading fails. *)
Definition readable_body : Reader := bytes_NewReader (bytes_of "[]").

Definition failing_body : Reader :=
  {| rd_data := []; rd_err := Some (foreign "io" "unexpected EOF") |}.

(** A buffer of 216 bytes. *)
Definition some_buffer : list byte := replicate 100 x5a ++ replicate 116 xa5.

(** A response whose version header names no known version, one with two
    version values, and a JSON response whose body is not JSON. *)
Definition unknown_version : Response :=
  response 200 [("Content-Type", ["application/json"]);
                ("Eth-Consensus-Version", ["teapot"])]
    (bytes_of "{}").

Definition two_versions : Response :=
  response 200 [("Content-Type", ["application/json"]);
                ("Eth-Consensus-Version", ["capella"; "deneb"])]
    (bytes_of "{}").

Definition html_body : Response :=
  response 200 [("Content-Type", ["application/json"])]
    (bytes_of "<html>").

Definition accepted : Response :=
  response 202 [] (bytes_of "ok").

(** A service with extra headers, one of them an [Accept]. *)
Definition service_with_headers (lvl : Z) (resp : Response) : @Service RefEnv :=
  {| log := {| level := lvl; context := [("service", FStr "beacon")] |};
     address := "http://localhost:5052";
     base := "http://localhost:5052/" : @URL RefEnv;
     extraHeaders := [("Accept", "text/plain"); ("Authorization", "Bearer t")];
     client := λ _, inr resp |}.

(** A client whose node has the state. *)
Definition client_with_state : Multi.Client unit :=
  Multi.Build_Client unit (Some (λ _, Multi.Returns (Some tt) None)).

End Examples.

(** ** Proof automation *)

(** The comparisons of a bit index against byte boundaries, once the byte
    the index falls in is known. *)
Ltac cmp_bits :=
  repeat match goal with
  | |- context [(?a <=? ?b)%Z] =>
      first [ rewrite (proj2 (Z.leb_le a b)) by lia
            | rewrite (proj2 (Z.leb_gt a b)) by lia ]
  | |- context [(?a <? ?b)%Z] =>
      first [ rewrite (proj2 (Z.ltb_lt a b)) by lia
            | rewrite (proj2 (Z.ltb_ge a b)) by lia ]
  end; reflexivity.

(** The same comparisons, decided where they stand in the goal. *)
Ltac decide_cmp :=
  repeat match goal with
  | |- context [(?a <=? ?b)%Z] =>
      first [ rewrite (proj2 (Z.leb_le a b)) by lia
            | rewrite (proj2 (Z.leb_gt a b)) by lia ]
  | |- context [(?a <? ?b)%Z] =>
      first [ rewrite (proj2 (Z.ltb_lt a b)) by lia
            | rewrite (proj2 (Z.ltb_ge a b)) by lia ]
  end.

(** * Properties *)

(** ** Bytes and little-endian integers *)

Lemma Z_of_byte_of_Z (z : Z) : Z_of_byte (byte_of_Z z) = Z.land z 255.
Proof.
  unfold Z_of_byte, byte_of_Z.
  assert (Hb : 0 <= Z.land z 255 <= 255).
  { change 255 with (Z.ones 8). rewrite Z.land_ones by lia.
    change (Z.ones 8) with 255. pose proof (Z.mod_pos_bound z (2 ^ 8)). lia. }
  destruct (Byte.of_N (Z.to_N (Z.land z 255))) as [b|] eqn:E.
  - apply Byte.to_of_N in E. rewrite E. lia.
  - apply Byte.of_N_None_iff in E. lia.
Qed.

(** Bit [n] of the byte of [v] that starts at bit [k], put back in place. *)
Lemma byte_in_place_bit (v k n : Z) :
  0 <= k -> 0 <= n ->
  Z.testbit (Z.shiftl (Z.land (Z.shiftr v k) 255) k) n
  = Z.testbit v n && (k <=? n) && (n <? k + 8).
Proof.
  intros Hk Hn. change 255 with (Z.ones 8).
  destruct (Z.leb_spec k n) as [Hle|Hlt].
  - rewrite Z.shiftl_spec, Z.land_spec, Z.shiftr_spec, Z.testbit_ones_nonneg by lia.
    replace (n - k + k) with n by lia.
    destruct (Z.ltb_spec (n - k) 8), (Z.ltb_spec n (k + 8)); try lia;
      rewrite ?andb_true_r, ?andb_false_r; reflexivity.
  - rewrite Z.shiftl_spec_low by lia. rewrite andb_false_r. reflexivity.
Qed.

Lemma UnmarshallUint64_PutUint64 (v : Z) (rest : list byte) :
  0 <= v < 2 ^ 64 ->
  Deneb.UnmarshallUint64 (Deneb.PutUint64 v ++ rest) = Some v.
Proof.
  intros Hv. unfold Deneb.PutUint64, Deneb.UnmarshallUint64. cbn [app].
  f_equal. rewrite !Z_of_byte_of_Z.
  apply Z.bits_inj'. intros n Hn.
  assert (H0 : Z.testbit (Z.land v 255) n
               = Z.testbit v n && (0 <=? n) && (n <? 0 + 8)).
  { rewrite <- (byte_in_place_bit v 0 n) by lia.
    now rewrite Z.shiftr_0_r, Z.shiftl_0_r. }
  rewrite !Z.lor_spec, H0, !byte_in_place_bit by lia.
  destruct (Z.ltb_spec n 64) as [Hlt|Hge].
  - destruct (Z.testbit v n); [|reflexivity]. cbn [andb].
    assert (Hcase : n < 8 \/ 8 <= n < 16 \/ 16 <= n < 24 \/ 24 <= n < 32 \/
                    32 <= n < 40 \/ 40 <= n < 48 \/ 48 <= n < 56 \/
                    56 <= n < 64) by lia.
    repeat destruct Hcase as [Hcase|Hcase]; cmp_bits.
  - rewrite (Z.bits_above_log2 v n); [reflexivity | lia |].
    destruct (Z.eq_dec v 0) as [->|]; [simpl; lia|].
    apply Z.log2_lt_pow2; [lia|].
    apply Z.lt_le_trans with (2 ^ 64); [lia|]. apply Z.pow_le_mono_r; lia.
Qed.

Lemma length_PutUint64 (v : Z) : length (Deneb.PutUint64 v) = 8%nat.
Proof. reflexivity. Qed.

(** ** The SSZ codec of [BlindedBlobSidecar] *)
Section DenebCodec.
Import Deneb.

(** [copy] onto an array of the source's length overwrites all of it. *)
Lemma copy_same_length (dst src : list byte) :
  length dst = length src -> copy dst src = src.
Proof.
  intros Hlen. unfold copy.
  rewrite Hlen, firstn_all, drop_ge by lia. apply app_nil_r.
Qed.

(** A slice that starts after a prefix [pre] and spans the next field [x]. *)
Lemma slice_field (pre x post : list byte) (lo hi : nat) :
  length pre = lo -> (lo + length x)%nat = hi ->
  slice (pre ++ x ++ post) lo hi = Some x.
Proof.
  intros Hlo Hhi. unfold slice.
  rewrite decide_True by (rewrite !length_app; lia).
  f_equal. rewrite drop_app_length' by done.
  apply take_app_length'. lia.
Qed.

Lemma slice_first (x post : list byte) (hi : nat) :
  length x = hi -> slice (x ++ post) 0 hi = Some x.
Proof. intros Hhi. apply (slice_field [] x post 0 hi); [done | cbn; lia]. Qed.

Lemma slice_last (pre x : list byte) (lo hi : nat) :
  length pre = lo -> (lo + length x)%nat = hi ->
  slice (pre ++ x) lo hi = Some x.
Proof.
  intros Hlo Hhi. rewrite <- (app_nil_r x) at 1. by apply slice_field.
Qed.

(** The encoding is the eight fields one after the other. *)
Lemma MarshalSSZ_fields (v : BlindedBlobSidecar) :
  MarshalSSZ v =
  (BlockRoot v ++ PutUint64 (Index v) ++ PutUint64 (Slot v) ++
   BlockParentRoot v ++ PutUint64 (ProposerIndex v) ++ BlobRoot v ++
   KzgCommitment v ++ KzgProof v, None).
Proof.
  unfold MarshalSSZ, MarshalSSZTo, MarshalUint64. cbn [app].
  f_equal. rewrite <- !app_assoc. reflexivity.
Qed.

Lemma MarshalSSZ_length (v : BlindedBlobSidecar) :
  valid v -> length (MarshalSSZ v).1 = 216%nat.
Proof.
  intros (H1 & _ & _ & H4 & _ & H6 & H7 & H8).
  rewrite MarshalSSZ_fields. cbn [fst].
  rewrite !length_app, !length_PutUint64. lia.
Qed.

Lemma UnmarshalSSZ_MarshalSSZ (v b : BlindedBlobSidecar) :
  valid v -> valid b ->
  UnmarshalSSZ b (MarshalSSZ v).1 = Some (v, None).
Proof.
  intros Hv Hb. pose proof (MarshalSSZ_length v Hv) as Hlen.
  destruct Hv as (H1 & H2 & H3 & H4 & H5 & H6 & H7 & H8).
  destruct Hb as (B1 & _ & _ & B4 & _ & B6 & B7 & B8).
  unfold UnmarshalSSZ. rewrite Hlen. rewrite decide_False by lia.
  rewrite MarshalSSZ_fields. cbn [fst].
  destruct v as [r i sl p pi br kc kp]; cbn [BlockRoot Index Slot BlockParentRoot
    ProposerIndex BlobRoot KzgCommitment KzgProof] in *.
  set (e1 := PutUint64 i). set (e2 := PutUint64 sl). set (e4 := PutUint64 pi).
  assert (L1 : length e1 = 8%nat) by apply length_PutUint64.
  assert (L2 : length e2 = 8%nat) by apply length_PutUint64.
  assert (L4 : length e4 = 8%nat) by apply length_PutUint64.
  rewrite (slice_first r _ 32) by lia.
  cbn [mbind option_bind].
  rewrite (slice_field r e1 _ 32 40) by lia. cbn [mbind option_bind].
  replace (UnmarshallUint64 e1) with (Some i)
    by (symmetry; rewrite <- (app_nil_r e1); apply UnmarshallUint64_PutUint64; lia).
  cbn [mbind option_bind].
  rewrite (app_assoc r e1).
  rewrite (slice_field (r ++ e1) e2 _ 40 48) by (rewrite ?length_app; lia).
  cbn [mbind option_bind].
  replace (UnmarshallUint64 e2) with (Some sl)
    by (symmetry; rewrite <- (app_nil_r e2); apply UnmarshallUint64_PutUint64; lia).
  cbn [mbind option_bind].
  rewrite (app_assoc (r ++ e1) e2).
  rewrite (slice_field ((r ++ e1) ++ e2) p _ 48 80) by (rewrite ?length_app; lia).
  cbn [mbind option_bind].
  rewrite (app_assoc ((r ++ e1) ++ e2) p).
  rewrite (slice_field (((r ++ e1) ++ e2) ++ p) e4 _ 80 88)
    by (rewrite ?length_app; lia).
  cbn [mbind option_bind].
  replace (UnmarshallUint64 e4) with (Some pi)
    by (symmetry; rewrite <- (app_nil_r e4); apply UnmarshallUint64_PutUint64; lia).
  cbn [mbind option_bind].
  rewrite (app_assoc (((r ++ e1) ++ e2) ++ p) e4).
  rewrite (slice_field ((((r ++ e1) ++ e2) ++ p) ++ e4) br _ 88 120)
    by (rewrite ?length_app; lia).
  cbn [mbind option_bind].
  rewrite (app_assoc ((((r ++ e1) ++ e2) ++ p) ++ e4) br).
  rewrite (slice_field (((((r ++ e1) ++ e2) ++ p) ++ e4) ++ br) kc _ 120 168)
    by (rewrite ?length_app; lia).
  cbn [mbind option_bind].
  rewrite (app_assoc (((((r ++ e1) ++ e2) ++ p) ++ e4) ++ br) kc).
  rewrite (slice_last ((((((r ++ e1) ++ e2) ++ p) ++ e4) ++ br) ++ kc) kp 168 216)
    by (rewrite ?length_app; lia).
  cbn [mbind option_bind].
  rewrite !copy_same_length by lia. reflexivity.
Qed.

Lemma UnmarshalSSZ_wrong_size (b : BlindedBlobSidecar) (buf : list byte) :
  length buf <> 216%nat -> UnmarshalSSZ b buf = Some (b, Some ssz_ErrSize).
Proof.
  intros Hlen. unfold UnmarshalSSZ. rewrite decide_True by lia. reflexivity.
Qed.

End DenebCodec.

(** C7. Decoding the encoding of a sidecar gives the sidecar back, with no
    error, whatever the receiver held before; and a buffer whose length is
    not 216 is refused with [ErrSize], the receiver left as it was. *)
Theorem ssz_roundtrip_and_size_check :
  (forall v b : Deneb.BlindedBlobSidecar,
     Deneb.valid v -> Deneb.valid b ->
     (Deneb.MarshalSSZ v).2 = None /\
     Deneb.UnmarshalSSZ b (Deneb.MarshalSSZ v).1 = Some (v, None)) /\
  (forall (b : Deneb.BlindedBlobSidecar) (buf : list byte),
     length buf <> 216%nat ->
     Deneb.UnmarshalSSZ b buf = Some (b, Some ssz_ErrSize)).
Proof.
  split.
  - intros v b Hv Hb. split; [reflexivity|].
    by apply UnmarshalSSZ_MarshalSSZ.
  - apply UnmarshalSSZ_wrong_size.
Qed.

(** ** [MarshalYAML] *)



Lemma HasPrefix_one (x o : byte) (s : list byte) :
  HasPrefix (x :: s) [o] = bool_decide (x = o).
Proof.
  change (HasPrefix (x :: s) [o]) with (if Byte.eqb x o then true else false).
  destruct (Byte.eqb x o) eqn:E.
  - apply Byte.byte_dec_bl in E. by rewrite bool_decide_eq_true_2.
  - apply Byte.eqb_false in E. by rewrite bool_decide_eq_false_2.
Qed.

(** Replacing a one-byte pattern by one byte works byte by byte. *)
Lemma replace_from_one (o n : byte) (fuel : nat) (s : list byte) :
  (length s <= fuel)%nat ->
  replace_from fuel s o [] [n] = (λ c, if decide (c = o) then n else c) <$> s.
Proof.
  revert s. induction fuel as [|fuel IH]; intros s Hlen.
  - destruct s; [reflexivity | cbn in Hlen; lia].
  - destruct s as [|x s]; [reflexivity|].
    cbn [replace_from]. rewrite HasPrefix_one.
    cbn [length fmap list_fmap]. rewrite drop_0. cbn [length] in Hlen.
    rewrite IH by lia.
    destruct (decide (x = o)) as [->|Hne].
    + rewrite bool_decide_eq_true_2 by done. reflexivity.
    + rewrite bool_decide_eq_false_2 by done. reflexivity.
Qed.

Lemma ReplaceAll_quote (s : list byte) :
  ReplaceAll s x22 [] [x27] = requote <$> s.
Proof. unfold ReplaceAll. by apply replace_from_one. Qed.

Lemma requote_no_quote (s : list byte) : x22 ∉ requote <$> s.
Proof.
  intros Hin. apply list_elem_of_fmap in Hin as (c & Hc & _).
  unfold requote in Hc. destruct (decide (c = x22)); congruence.
Qed.

(** C10. Whenever [MarshalYAML] succeeds, its output is the encoder's
    output with every double quote turned into a single quote, and so holds
    no double quote. *)
Theorem MarshalYAML_has_no_double_quote
    (BeaconBlock BlobSidecar : Type)
    (yaml_MarshalWithOptions :
       Deneb.blockContentsYAML BeaconBlock BlobSidecar -> bool ->
       list byte * option error)
    (b : Deneb.BlockContents BeaconBlock BlobSidecar) (out : list byte) :
  Deneb.MarshalYAML BeaconBlock BlobSidecar yaml_MarshalWithOptions b = (out, None) ->
  (x22 ∉ out) /\
  exists yamlBytes,
    yaml_MarshalWithOptions
      (Deneb.Build_blockContentsYAML BeaconBlock BlobSidecar
         (Deneb.Block _ _ b) (Deneb.BlobSidecars _ _ b)) true
    = (yamlBytes, None) /\
    out = requote <$> yamlBytes.
Proof.
  unfold Deneb.MarshalYAML.
  destruct (yaml_MarshalWithOptions _ true) as [yamlBytes [e|]] eqn:E;
    intros Hout; [discriminate|].
  injection Hout as <-. rewrite ReplaceAll_quote.
  split; [apply requote_no_quote | eauto].
Qed.

(** ** [BeaconState] of the multi client *)

(** C8. When the dispatch reports that the state is not available — it
    returns no error and either a [nil] interface or a [nil] state pointer —
    [BeaconState] returns [nil] and no error; and an error [BeaconState]
    returns is one the dispatch returned. *)
Theorem BeaconState_not_found_is_no_error
    (VersionedBeaconState Service : Type)
    (doCall : Service ->
              (Multi.Client VersionedBeaconState ->
               Multi.outcome (Multi.iface VersionedBeaconState)) ->
              Multi.outcome (Multi.iface VersionedBeaconState))
    (s : Service) (stateID : string) :
  (doCall s (Multi.beaconStateCall VersionedBeaconState stateID)
     = Multi.Returns None None \/
   doCall s (Multi.beaconStateCall VersionedBeaconState stateID)
     = Multi.Returns (Some (Multi.BeaconStatePtr VersionedBeaconState None)) None ->
   Multi.BeaconState VersionedBeaconState Service doCall s stateID
     = Multi.Returns None None) /\
  (forall v err,
     Multi.BeaconState VersionedBeaconState Service doCall s stateID
       = Multi.Returns v (Some err) ->
     exists res,
       doCall s (Multi.beaconStateCall VersionedBeaconState stateID)
         = Multi.Returns res (Some err)).
Proof.
  unfold Multi.BeaconState. split.
  - intros [-> | ->]; reflexivity.
  - intros v err.
    destruct (doCall s _) as [[[p|t]|] [e|]|msg]; intros Heq;
      try discriminate; injection Heq as <- <-; eauto.
Qed.

(** ** The transport *)
Section TransportProps.
Import HTTP.
Context `{Env}.

(** *** How a call ends, whatever it logs *)

Lemma result_bind {A B} (m : Tx A) (f : A -> Tx B) :
  result (m ≫= f) =
  match result m with
  | Ok a => result (f a)
  | Err e => Err e
  | Panic msg => Panic msg
  end.
Proof.
  destruct m as [w [a|e|msg]]; cbn; [destruct (f a)|..]; reflexivity.
Qed.

Lemma result_Msg (l : Logger) (lvl : Z) fields (msg : string) :
  result (Msg l lvl fields msg) = Ok tt.
Proof. unfold Msg. destruct (Enabled l lvl); reflexivity. Qed.

Lemma result_emit (ev : Event) : result (emit ev) = Ok tt.
Proof. reflexivity. Qed.

Lemma result_with_span {A} (name : string) (m : Tx A) :
  result (with_span name m) = result m.
Proof. destruct m. reflexivity. Qed.

Lemma result_mret {A} (a : A) : result (mret a : Tx A) = Ok a.
Proof. reflexivity. Qed.

Lemma result_fail {A} (e : error) : result (fail e : Tx A) = Err e.
Proof. reflexivity. Qed.

(** The equations that bring a goal about [result] of a sequence of steps
    down to the step that decides it. *)
Create Rewrite HintDb tx.
#[local] Hint Rewrite @result_with_span @result_bind @result_Msg @result_emit
  @result_mret @result_fail : tx.

(** [populateContentType] touches the content type only. *)
Lemma populateContentType_fields (res : httpResponse) (resp : Response) :
  (populateContentType res resp).1
  = set_contentType (contentType (populateContentType res resp).1) res.
Proof.
  unfold populateContentType.
  destruct (Header resp !! "Content-Type") as [[|v [|v' vs]]|];
    try (destruct res; reflexivity).
  destruct (ParseFromMediaType v). destruct res; reflexivity.
Qed.

(** [populateConsensusVersion] touches the version only. *)
Lemma populateConsensusVersion_fields (res : httpResponse) (resp : Response) :
  (populateConsensusVersion res resp).1
  = set_consensusVersion
      (consensusVersion (populateConsensusVersion res resp).1) res.
Proof.
  unfold populateConsensusVersion.
  destruct (Header resp !! "Eth-Consensus-Version") as [[|v [|v' vs]]|];
    try (destruct res; reflexivity).
  - destruct (DataVersion_UnmarshalJSON _ _) as [d [e|]]; destruct res; reflexivity.
  - destruct (decide _); [destruct res; reflexivity|].
    destruct (json_Unmarshal _ _) as [m [e|]]; destruct res; reflexivity.
Qed.

(** How [get2] ends once it has a response. *)
Lemma get2_response_result (log : Logger) (endpoint : string) (resp : Response) :
  result (get2_response log endpoint resp) =
  if decide (StatusCode resp = StatusNotFound \/ StatusCode resp = StatusNoContent)
  then Ok {| statusCode := StatusCode resp; contentType := ContentType_zero;
             consensusVersion := DataVersion_zero; body := [] |}
  else
    match rd_err (Body resp) with
    | Some err => Err (errors_Wrap err "failed to read body")
    | None =>
        if decide (Z.quot (StatusCode resp) 100 <> 2)
        then Err (http_Error MethodGet endpoint (StatusCode resp)
                    (rd_data (Body resp)))
        else
          match populateConsensusVersion
                  (envelope resp (resolved_contentType resp)) resp with
          | (res, None) => Ok res
          | (_, Some err) =>
              Err (errors_Wrap err "failed to parse consensus version")
          end
    end.
Proof.
  unfold get2_response.
  destruct (decide (StatusCode resp = StatusNotFound)) as [E404|N404].
  { rewrite decide_True by auto. autorewrite with tx; cbn match beta. reflexivity. }
  destruct (decide (StatusCode resp = StatusNoContent)) as [E204|N204].
  { rewrite decide_True by auto. autorewrite with tx; cbn match beta. reflexivity. }
  rewrite decide_False by tauto.
  unfold io_ReadAll. destruct (rd_err (Body resp)) as [err|].
  { autorewrite with tx; cbn match beta. reflexivity. }
  destruct (decide (Z.quot (StatusCode resp) 100 <> 2)) as [Hfam|Hfam].
  { autorewrite with tx; cbn match beta. reflexivity. }
  unfold resolved_contentType.
  change (set_body (rd_data (Body resp)) _) with (envelope resp ContentType_zero).
  pose proof (populateContentType_fields (envelope resp ContentType_zero) resp) as Hct.
  destruct (populateContentType (envelope resp ContentType_zero) resp)
    as [res [err|]]; cbn [fst] in Hct; autorewrite with tx; cbn match beta.
  - replace (set_contentType ContentTypeJSON res)
      with (envelope resp ContentTypeJSON) by (rewrite Hct; reflexivity).
    destruct (populateConsensusVersion _ resp) as [res' [e|]]; reflexivity.
  - replace res with (envelope resp (contentType res)) at 1
      by (rewrite Hct at 2; reflexivity).
    destruct (populateConsensusVersion _ resp) as [res' [e|]]; reflexivity.
Qed.

(** How [get2] ends. *)
Lemma get2_result (s : Service) (endpoint : string) :
  result (get2 s endpoint) =
  match get2_request s endpoint with
  | inl err => Err err
  | inr req =>
      match client s req with
      | inl err => Err (errors_Wrap err "failed to call GET endpoint")
      | inr resp => result (get2_response (call_log s endpoint) endpoint resp)
      end
  end.
Proof.
  unfold get2. autorewrite with tx; cbn match beta.
  destruct (get2_request s endpoint) as [err|req]; [reflexivity|].
  autorewrite with tx; cbn match beta. destruct (client s req) as [err|resp]; [|reflexivity].
  autorewrite with tx; cbn match beta. reflexivity.
Qed.

Lemma get2_receives_result (s : Service) (endpoint : string) (resp : Response) :
  get2_receives s endpoint resp ->
  result (get2 s endpoint)
  = result (get2_response (call_log s endpoint) endpoint resp).
Proof.
  intros (req & Hreq & Hresp). rewrite get2_result, Hreq, Hresp. reflexivity.
Qed.

(** The path of a response that is 2xx, not 204, and whose body is read. *)
Lemma get2_success_path (s : Service) (endpoint : string) (resp : Response) :
  get2_receives s endpoint resp ->
  Z.quot (StatusCode resp) 100 = 2 ->
  StatusCode resp <> StatusNoContent ->
  rd_err (Body resp) = None ->
  result (get2 s endpoint) =
  match populateConsensusVersion
          (envelope resp (resolved_contentType resp)) resp with
  | (res, None) => Ok res
  | (_, Some err) => Err (errors_Wrap err "failed to parse consensus version")
  end.
Proof.
  intros Hrecv Hfam H204 Hread.
  rewrite (get2_receives_result _ _ _ Hrecv), get2_response_result, Hread.
  rewrite decide_False, decide_False; [reflexivity | tauto |].
  intros [E|E]; [|done]. rewrite E in Hfam. discriminate.
Qed.

(** How [post] treats the request body before sending. *)
Lemma post_body_result (log : Logger) (body : option Reader) :
  result (post_body log body) =
  if Enabled log TraceLevel then
    match body with
    | None => Panic "invalid memory address or nil pointer dereference"
    | Some r =>
        match rd_err r with
        | Some _ => Err (errors_New "failed to read request body")
        | None => Ok (Some (bytes_NewReader (rd_data r)))
        end
    end
  else Ok body.
Proof.
  unfold post_body, io_ReadAll. destruct (Enabled log TraceLevel); [|reflexivity].
  destruct body as [r|]; [|reflexivity].
  destruct (rd_err r); [reflexivity|]. autorewrite with tx; cbn match beta. reflexivity.
Qed.

(** How [post] ends. *)
Lemma post_result (s : Service) (endpoint : string) (body : option Reader) :
  result (post s endpoint body) =
  match result (post_body (call_log s endpoint) body) with
  | Panic msg => Panic msg
  | Err e => Err e
  | Ok body' =>
      match post_request s endpoint body' with
      | inl err => Err err
      | inr req =>
          match client s req with
          | inl err => Err (errors_Wrap err "failed to call POST endpoint")
          | inr resp =>
              match rd_err (Body resp) with
              | Some err => Err (errors_Wrap err "failed to read POST response")
              | None =>
                  if decide (Z.quot (StatusCode resp) 100 <> 2)
                  then Err (http_Error MethodPost endpoint (StatusCode resp)
                              (rd_data (Body resp)))
                  else Ok (bytes_NewReader (rd_data (Body resp)))
              end
          end
      end
  end.
Proof.
  unfold post. rewrite result_bind.
  destruct (result (post_body _ body)) as [body'|e|msg]; try reflexivity.
  destruct (post_request s endpoint body') as [err|req]; [reflexivity|].
  destruct (client s req) as [err|resp]; [reflexivity|].
  unfold io_ReadAll. destruct (rd_err (Body resp)); [reflexivity|].
  destruct (decide _); autorewrite with tx; cbn match beta; reflexivity.
Qed.

(** How [get] ends. *)
Lemma get_result (s : Service) (endpoint : string) :
  result (get s endpoint) =
  match get_request s endpoint with
  | inl err => Err err
  | inr req =>
      match client s req with
      | inl err => Err (errors_Wrap err "failed to call GET endpoint")
      | inr resp =>
          if decide (StatusCode resp = StatusNotFound) then Ok None
          else
            match rd_err (Body resp) with
            | Some err => Err (errors_Wrap err "failed to read GET response")
            | None =>
                if decide (Z.quot (StatusCode resp) 100 <> 2)
                then Err (http_Error MethodGet endpoint (StatusCode resp)
                            (rd_data (Body resp)))
                else Ok (Some (bytes_NewReader (rd_data (Body resp))))
            end
      end
  end.
Proof.
  unfold get. autorewrite with tx; cbn match beta.
  destruct (get_request s endpoint) as [err|req]; [reflexivity|].
  destruct (client s req) as [err|resp]; [reflexivity|].
  destruct (decide (StatusCode resp = StatusNotFound)); [reflexivity|].
  unfold io_ReadAll. destruct (rd_err (Body resp)); [reflexivity|].
  destruct (decide _); autorewrite with tx; cbn match beta; reflexivity.
Qed.

(** A reader that reads to the end is the reader over its bytes. *)
Lemma bytes_NewReader_rd_data (r : Reader) :
  rd_err r = None -> bytes_NewReader (rd_data r) = r.
Proof. destruct r as [d e]. cbn. intros ->. reflexivity. Qed.

(** *** Decoding [responseMetadata] *)

Lemma decode_members_no_field (members : list (string * list byte))
    (metadata : responseMetadata) :
  (forall key raw, (key, raw) ∈ members -> json_fieldMatch "version" key = false) ->
  decode_members members metadata = (metadata, None).
Proof.
  induction members as [|[key raw] rest IH]; intros Hno; [reflexivity|].
  cbn [decode_members]. rewrite (Hno key raw) by apply list_elem_of_here.
  apply IH. intros k r Hin. apply (Hno k r). by apply list_elem_of_further.
Qed.

Lemma decode_members_one_field (pre post : list (string * list byte))
    (key : string) (raw : list byte) (metadata : responseMetadata)
    (v : DataVersion) :
  (forall k r, (k, r) ∈ pre ++ post -> json_fieldMatch "version" k = false) ->
  json_fieldMatch "version" key = true ->
  DataVersion_UnmarshalJSON (Version metadata) raw = (v, None) ->
  decode_members (pre ++ (key, raw) :: post) metadata = ({| Version := v |}, None).
Proof.
  intros Hno Hkey Hv. induction pre as [|[k r] pre IH].
  - cbn [app decode_members]. rewrite Hkey, Hv.
    apply decode_members_no_field. intros k r Hin. apply (Hno k r).
    by apply elem_of_app; right.
  - cbn [app decode_members]. rewrite (Hno k r) by (cbn; apply list_elem_of_here).
    apply IH. intros k' r' Hin. apply (Hno k' r'). cbn. by apply list_elem_of_further.
Qed.

(** *** The claims about [get2] and [post] *)

(** C1, as the code has it. For a response [get2] receives: a 404 and a
    204 give an envelope with that status, an empty body and no error;
    any other status outside 2xx whose body is read gives the [Error] value
    with the method, the endpoint, the status code and the body; a 2xx
    status (204 apart) whose body is read gives an envelope with the status
    and the body when the consensus version resolves, and otherwise the
    error of that resolution, wrapped, never an [Error] value. *)
Theorem get2_status_classification
    (s : Service) (endpoint : string) (resp : Response) :
  get2_receives s endpoint resp ->
  (StatusCode resp = StatusNotFound \/ StatusCode resp = StatusNoContent ->
   result (get2 s endpoint)
   = Ok {| statusCode := StatusCode resp; contentType := ContentType_zero;
           consensusVersion := DataVersion_zero; body := [] |}) /\
  (StatusCode resp <> StatusNotFound ->
   Z.quot (StatusCode resp) 100 <> 2 ->
   rd_err (Body resp) = None ->
   result (get2 s endpoint)
   = Err (http_Error MethodGet endpoint (StatusCode resp) (rd_data (Body resp)))) /\
  (Z.quot (StatusCode resp) 100 = 2 ->
   StatusCode resp <> StatusNoContent ->
   rd_err (Body resp) = None ->
   (exists res,
      (populateConsensusVersion
         (envelope resp (resolved_contentType resp)) resp).2 = None /\
      result (get2 s endpoint) = Ok res /\
      statusCode res = StatusCode resp /\
      body res = rd_data (Body resp)) \/
   (exists err,
      (populateConsensusVersion
         (envelope resp (resolved_contentType resp)) resp).2 = Some err /\
      result (get2 s endpoint)
      = Err (errors_Wrap err "failed to parse consensus version"))).
Proof.
  intros Hrecv. split; [|split].
  - intros Hcode.
    rewrite (get2_receives_result _ _ _ Hrecv), get2_response_result.
    by rewrite decide_True by done.
  - intros H404 Hfam Hread.
    rewrite (get2_receives_result _ _ _ Hrecv), get2_response_result, Hread.
    rewrite decide_False, decide_True; [reflexivity | done |].
    intros [E|E]; [done|]. rewrite E in Hfam. by apply Hfam.
  - intros Hfam H204 Hread.
    rewrite (get2_success_path _ _ _ Hrecv Hfam H204 Hread).
    pose proof (populateConsensusVersion_fields
                  (envelope resp (resolved_contentType resp)) resp) as Hf.
    destruct (populateConsensusVersion _ resp) as [res [err|]]; cbn [fst snd] in *.
    + right. eauto.
    + left. exists res. rewrite Hf. auto.
Qed.

(** C2, as the code has it. [populateContentType] returns an error for a
    Content-Type header that is absent or has zero or several values, but
    [get2] fails on none of its errors: whenever it returns one, the
    content type is JSON and the call goes on to resolve the consensus
    version, which alone decides how the call ends. *)
Theorem content_type_errors_default_to_JSON
    (s : Service) (endpoint : string) (resp : Response) :
  get2_receives s endpoint resp ->
  Z.quot (StatusCode resp) 100 = 2 ->
  StatusCode resp <> StatusNoContent ->
  rd_err (Body resp) = None ->
  (forall res values,
     Header resp !! "Content-Type" = Some values ->
     length values <> 1%nat ->
     populateContentType res resp
     = (res, Some (fmt_Errorf "malformed content type (%d entries)"
                     (Z.of_nat (length values))))) /\
  (forall res,
     Header resp !! "Content-Type" = None ->
     populateContentType res resp
     = (res, Some (errors_New "no content type supplied in response"))) /\
  ((populateContentType (envelope resp ContentType_zero) resp).2 <> None ->
   resolved_contentType resp = ContentTypeJSON /\
   result (get2 s endpoint)
   = match populateConsensusVersion (envelope resp ContentTypeJSON) resp with
     | (res, None) => Ok res
     | (_, Some err) => Err (errors_Wrap err "failed to parse consensus version")
     end /\
   (forall res, result (get2 s endpoint) = Ok res ->
                contentType res = ContentTypeJSON)).
Proof.
  intros Hrecv Hfam H204 Hread. split; [|split].
  - intros res values Hhdr Hlen. unfold populateContentType. rewrite Hhdr.
    destruct values as [|v [|v' vs]]; [reflexivity | done | reflexivity].
  - intros res Hhdr. unfold populateContentType. by rewrite Hhdr.
  - intros Herr.
    assert (Hct : resolved_contentType resp = ContentTypeJSON).
    { unfold resolved_contentType.
      destruct (populateContentType _ resp) as [res [e|]]; [reflexivity|].
      by destruct Herr. }
    rewrite (get2_success_path _ _ _ Hrecv Hfam H204 Hread), Hct.
    split; [reflexivity|]. split; [reflexivity|].
    intros res.
    pose proof (populateConsensusVersion_fields
                  (envelope resp ContentTypeJSON) resp) as Hf.
    destruct (populateConsensusVersion _ resp) as [res' [err|]];
      cbn [fst] in Hf; intros Hres; [discriminate|].
    injection Hres as <-. rewrite Hf. reflexivity.
Qed.

(** C3, as the code has it. For a 2xx response (204 apart) whose body is
    read, whose content type resolves to JSON and which has no
    consensus-version header, when the body is a JSON object: the version is
    what decoding the object's members into [responseMetadata] gives; with
    no [version] member the call succeeds and the envelope holds the
    version type's zero value; with one [version] member the envelope holds
    the version that member decodes to. *)
Theorem json_version_from_payload
    (s : Service) (endpoint : string) (resp : Response)
    (members : list (string * list byte)) :
  get2_receives s endpoint resp ->
  Z.quot (StatusCode resp) 100 = 2 ->
  StatusCode resp <> StatusNoContent ->
  rd_err (Body resp) = None ->
  resolved_contentType resp = ContentTypeJSON ->
  Header resp !! "Eth-Consensus-Version" = None ->
  json_scan (rd_data (Body resp)) = inr (json_object members) ->
  result (get2 s endpoint)
  = match decode_members members {| Version := DataVersion_zero |} with
    | (metadata, None) =>
        Ok (set_consensusVersion (Version metadata)
              (envelope resp ContentTypeJSON))
    | (_, Some err) =>
        Err (errors_Wrap
               (errors_Wrap err
                  "no consensus version header and failed to parse response")
               "failed to parse consensus version")
    end /\
  ((forall key raw,
      (key, raw) ∈ members -> json_fieldMatch "version" key = false) ->
   result (get2 s endpoint) = Ok (envelope resp ContentTypeJSON)) /\
  (forall pre key raw post v,
     members = pre ++ (key, raw) :: post ->
     (forall k r, (k, r) ∈ pre ++ post -> json_fieldMatch "version" k = false) ->
     json_fieldMatch "version" key = true ->
     DataVersion_UnmarshalJSON DataVersion_zero raw = (v, None) ->
     result (get2 s endpoint)
     = Ok (set_consensusVersion v (envelope resp ContentTypeJSON))).
Proof.
  intros Hrecv Hfam H204 Hread Hct Hhdr Hscan.
  assert (Hres : result (get2 s endpoint)
    = match decode_members members {| Version := DataVersion_zero |} with
      | (metadata, None) =>
          Ok (set_consensusVersion (Version metadata)
                (envelope resp ContentTypeJSON))
      | (_, Some err) =>
          Err (errors_Wrap
                 (errors_Wrap err
                    "no consensus version header and failed to parse response")
                 "failed to parse consensus version")
      end).
  { rewrite (get2_success_path _ _ _ Hrecv Hfam H204 Hread), Hct.
    unfold populateConsensusVersion. rewrite Hhdr.
    cbn [set_consensusVersion envelope contentType body].
    rewrite decide_False by (intros Hne; by apply Hne).
    unfold json_Unmarshal. rewrite Hscan.
    destruct (decode_members members _) as [m [e|]]; reflexivity. }
  split; [exact Hres|]. split.
  - intros Hno. rewrite Hres, (decode_members_no_field _ _ Hno). reflexivity.
  - intros pre key raw post v -> Hno Hkey Hv.
    rewrite Hres, (decode_members_one_field pre post key raw
                     {| Version := DataVersion_zero |} v Hno Hkey Hv).
    reflexivity.
Qed.

(** C4. Without a consensus-version header, [populateConsensusVersion]
    on an envelope whose content type is not JSON returns "no consensus
    version header" and leaves the version at [DataVersionUnknown]; and for
    a 2xx response (204 apart, which never gets that far) whose body is read
    and whose content type does not resolve to JSON, [get2] returns that
    error, wrapped, and no envelope. *)
Theorem binary_without_version_header_fails (resp : Response) :
  Header resp !! "Eth-Consensus-Version" = None ->
  (forall res : httpResponse,
     contentType res <> ContentTypeJSON ->
     populateConsensusVersion res resp
     = (set_consensusVersion DataVersionUnknown res,
        Some (errors_New "no consensus version header"))) /\
  (forall (s : Service) (endpoint : string),
     get2_receives s endpoint resp ->
     Z.quot (StatusCode resp) 100 = 2 ->
     StatusCode resp <> StatusNoContent ->
     rd_err (Body resp) = None ->
     resolved_contentType resp <> ContentTypeJSON ->
     result (get2 s endpoint)
     = Err (errors_Wrap (errors_New "no consensus version header")
              "failed to parse consensus version")).
Proof.
  intros Hhdr.
  assert (Hpop : forall res : httpResponse,
     contentType res <> ContentTypeJSON ->
     populateConsensusVersion res resp
     = (set_consensusVersion DataVersionUnknown res,
        Some (errors_New "no consensus version header"))).
  { intros res Hct. unfold populateConsensusVersion. rewrite Hhdr.
    cbn [set_consensusVersion contentType].
    by rewrite decide_True by done. }
  split; [exact Hpop|].
  intros s endpoint Hrecv Hfam H204 Hread Hct.
  rewrite (get2_success_path _ _ _ Hrecv Hfam H204 Hread).
  rewrite Hpop by exact Hct. reflexivity.
Qed.

(** C5. With exactly one value in the consensus-version header, and that
    value one [DataVersion.UnmarshalJSON] accepts, [populateConsensusVersion]
    sets the version read from the header, and so does the envelope [get2]
    returns for a 2xx response (204 apart) whose body is read, whatever the
    body is; and whenever the header is present, what
    [populateConsensusVersion] resolves and returns does not depend on the
    body. *)
Theorem version_header_wins :
  (forall (res : httpResponse) (resp : Response)
          (version : string) (v : DataVersion),
     Header resp !! "Eth-Consensus-Version" = Some [version] ->
     DataVersion_UnmarshalJSON DataVersionUnknown (fmt_Sprintf_q version)
     = (v, None) ->
     populateConsensusVersion res resp = (set_consensusVersion v res, None)) /\
  (forall (s : Service) (endpoint : string) (resp : Response)
          (version : string) (v : DataVersion),
     get2_receives s endpoint resp ->
     Z.quot (StatusCode resp) 100 = 2 ->
     StatusCode resp <> StatusNoContent ->
     rd_err (Body resp) = None ->
     Header resp !! "Eth-Consensus-Version" = Some [version] ->
     DataVersion_UnmarshalJSON DataVersionUnknown (fmt_Sprintf_q version)
     = (v, None) ->
     result (get2 s endpoint)
     = Ok (set_consensusVersion v (envelope resp (resolved_contentType resp)))) /\
  (forall (res : httpResponse) (resp : Response) (data1 data2 : list byte),
     is_Some (Header resp !! "Eth-Consensus-Version") ->
     consensusVersion (populateConsensusVersion (set_body data1 res) resp).1
     = consensusVersion (populateConsensusVersion (set_body data2 res) resp).1 /\
     (populateConsensusVersion (set_body data1 res) resp).2
     = (populateConsensusVersion (set_body data2 res) resp).2).
Proof.
  assert (Hpop : forall (res : httpResponse) (resp : Response)
                        (version : string) (v : DataVersion),
     Header resp !! "Eth-Consensus-Version" = Some [version] ->
     DataVersion_UnmarshalJSON DataVersionUnknown (fmt_Sprintf_q version)
     = (v, None) ->
     populateConsensusVersion res resp = (set_consensusVersion v res, None)).
  { intros res resp version v Hhdr Hv.
    unfold populateConsensusVersion. rewrite Hhdr.
    cbn [set_consensusVersion consensusVersion]. rewrite Hv. reflexivity. }
  split; [exact Hpop|]. split.
  - intros s endpoint resp version v Hrecv Hfam H204 Hread Hhdr Hv.
    rewrite (get2_success_path _ _ _ Hrecv Hfam H204 Hread).
    rewrite (Hpop _ _ _ _ Hhdr Hv). reflexivity.
  - intros res resp data1 data2 [values Hhdr].
    unfold populateConsensusVersion. rewrite Hhdr.
    destruct values as [|version [|v' vs]]; [by split| |by split].
    cbn [set_consensusVersion set_body consensusVersion].
    destruct (DataVersion_UnmarshalJSON _ _) as [d [e|]]; by split.
Qed.

(** C6. A response [post] receives with a status outside 2xx, 404
    included, and whose body is read, gives the [Error] value with the
    method, the endpoint, the status code and the body. *)
Theorem post_non_2xx_is_call_error
    (s : Service) (endpoint : string) (body : option Reader) (resp : Response) :
  post_receives s endpoint body resp ->
  rd_err (Body resp) = None ->
  Z.quot (StatusCode resp) 100 <> 2 ->
  result (post s endpoint body)
  = Err (http_Error MethodPost endpoint (StatusCode resp) (rd_data (Body resp))).
Proof.
  intros (body' & req & Hbody & Hreq & Hresp) Hread Hfam.
  rewrite post_result, Hbody, Hreq, Hresp, Hread.
  by rewrite decide_True by done.
Qed.

(** C9, as the code has it. How [get] and [get2] end does not depend on
    the log level.  How [post] ends does not depend on it when the request
    body is a reader that reads to the end without error, nor between two
    levels that both enable or both disable trace logging. *)
Theorem result_independent_of_log_level :
  (forall (s : Service) (endpoint : string) (l1 l2 : Z),
     result (get (with_level l1 s) endpoint)
     = result (get (with_level l2 s) endpoint)) /\
  (forall (s : Service) (endpoint : string) (l1 l2 : Z),
     result (get2 (with_level l1 s) endpoint)
     = result (get2 (with_level l2 s) endpoint)) /\
  (forall (s : Service) (endpoint : string) (r : Reader) (l1 l2 : Z),
     rd_err r = None ->
     result (post (with_level l1 s) endpoint (Some r))
     = result (post (with_level l2 s) endpoint (Some r))) /\
  (forall (s : Service) (endpoint : string) (body : option Reader) (l1 l2 : Z),
     (l1 <= TraceLevel <-> l2 <= TraceLevel) ->
     result (post (with_level l1 s) endpoint body)
     = result (post (with_level l2 s) endpoint body)).
Proof.
  split; [|split; [|split]].
  - intros s endpoint l1 l2. rewrite !get_result. reflexivity.
  - intros s endpoint l1 l2. rewrite !get2_result.
    change (get2_request (with_level l1 s) endpoint)
      with (get2_request (with_level l2 s) endpoint).
    destruct (get2_request _ endpoint) as [err|req]; [reflexivity|].
    change (client (with_level l1 s) req) with (client (with_level l2 s) req).
    destruct (client _ req) as [err|resp]; [reflexivity|].
    rewrite !get2_response_result. reflexivity.
  - intros s endpoint r l1 l2 Hread.
    rewrite !post_result, !post_body_result, Hread.
    rewrite (bytes_NewReader_rd_data r Hread).
    destruct (Enabled _ _), (Enabled _ _); reflexivity.
  - intros s endpoint body l1 l2 Hsame.
    rewrite !post_result, !post_body_result.
    assert (HE : Enabled (call_log (with_level l1 s) endpoint) TraceLevel
                 = Enabled (call_log (with_level l2 s) endpoint) TraceLevel).
    { unfold Enabled. cbn [call_log With with_level log level].
      apply bool_decide_ext. exact Hsame. }
    rewrite HE. reflexivity.
Qed.

End TransportProps.

(** ** The properties on the example values *)
Section OnExamples.
Import HTTP Reference Examples.

Lemma service_answering_receives (lvl : Z) (resp : Response) (endpoint : string) :
  get2_receives (service_answering lvl resp) endpoint resp.
Proof. eexists. split; reflexivity. Qed.

Lemma service_answering_post_receives (lvl : Z) (resp : Response)
    (endpoint : string) (r : Reader) :
  rd_err r = None ->
  post_receives (service_answering lvl resp) endpoint (Some r) resp.
Proof.
  intros Hread. exists (Some r). eexists. split.
  { rewrite post_body_result, Hread.
    destruct (Enabled _ _); [by rewrite bytes_NewReader_rd_data | reflexivity]. }
  split; [reflexivity|].
  destruct r as [data err]. cbn in Hread. subst err. reflexivity.
Qed.

(** C7 on two sidecars and on a one-byte buffer. *)
Lemma ssz_roundtrip_and_size_check_witness :
  Deneb.UnmarshalSSZ zero_sidecar (Deneb.MarshalSSZ some_sidecar).1
  = Some (some_sidecar, None) /\
  Deneb.UnmarshalSSZ some_sidecar [x00] = Some (some_sidecar, Some ssz_ErrSize).
Proof.
  destruct ssz_roundtrip_and_size_check as [Hround Hsize]. split.
  - apply (Hround some_sidecar zero_sidecar);
      unfold Deneb.valid; cbn; repeat split; lia.
  - apply (Hsize some_sidecar [x00]). cbn. lia.
Defined.

(** C10 on an encoder whose output has double quotes. *)
Lemma MarshalYAML_has_no_double_quote_witness :
  x22 ∉ (Deneb.MarshalYAML unit unit quoting_encoder empty_contents).1.
Proof.
  apply (MarshalYAML_has_no_double_quote unit unit quoting_encoder
           empty_contents _ eq_refl).
Defined.

(** C8 on a client whose node does not have the state. *)
Lemma BeaconState_not_found_is_no_error_witness :
  Multi.BeaconState unit (Multi.Client unit) single_client_doCall
    client_without_state "head"
  = Multi.Returns None None.
Proof.
  apply (BeaconState_not_found_is_no_error unit (Multi.Client unit)
           single_client_doCall client_without_state "head").
  right. reflexivity.
Defined.

(** C1 on a 404, on a 500 and on a 200 with a version header. *)
Lemma get2_status_classification_witness :
  result (get2 (service_answering InfoLevel not_found) state_endpoint)
  = Ok (ref_httpResponse 404 RefContentTypeUnknown RefDataVersionUnknown []) /\
  result (get2 (service_answering InfoLevel server_error) state_endpoint)
  = Err (http_Error "GET" state_endpoint 500 (bytes_of "internal error")) /\
  exists res,
    result (get2 (service_answering InfoLevel ssz_with_version) state_endpoint)
    = Ok res /\ statusCode res = 200 /\ body res = [x01; x02; x03].
Proof.
  split; [|split].
  - apply (get2_status_classification _ _ not_found
             (service_answering_receives _ _ _)).
    left. reflexivity.
  - apply (get2_status_classification _ _ server_error
             (service_answering_receives _ _ _)); [discriminate|discriminate|reflexivity].
  - destruct (get2_status_classification _ _ ssz_with_version
                (service_answering_receives InfoLevel _ state_endpoint))
      as (_ & _ & H2xx).
    destruct H2xx as [(res & _ & Hres & Hcode & Hbody) | (err & Herr & _)];
      [reflexivity | discriminate | reflexivity | | discriminate Herr].
    exists res. auto.
Defined.

(** C1 as stated fails: a 200 response with a binary content type and no
    version header does not give an envelope; [get2] returns an error. *)
Lemma get2_2xx_without_envelope :
  Z.quot (StatusCode ssz_without_version) 100 = 2 /\
  get2_receives (service_answering InfoLevel ssz_without_version)
    state_endpoint ssz_without_version /\
  result (get2 (service_answering InfoLevel ssz_without_version) state_endpoint)
  = Err (errors_Wrap (errors_New "no consensus version header")
           "failed to parse consensus version").
Proof.
  split; [reflexivity|]. split; [apply service_answering_receives|].
  reflexivity.
Qed.

(** C2 on a response with two Content-Type values. *)
Lemma content_type_errors_default_to_JSON_witness :
  @resolved_contentType RefEnv two_content_types = RefContentTypeJSON /\
  result (get2 (service_answering InfoLevel two_content_types) state_endpoint)
  = Ok (ref_httpResponse 200 RefContentTypeJSON RefDataVersionDeneb (bytes_of "{}")).
Proof.
  destruct (content_type_errors_default_to_JSON
              (service_answering InfoLevel two_content_types) state_endpoint
              two_content_types (service_answering_receives _ _ _)
              eq_refl ltac:(discriminate) eq_refl) as (_ & _ & Hget2).
  destruct Hget2 as (Hct & Hres & _); [discriminate|].
  split; [exact Hct|]. rewrite Hres. reflexivity.
Defined.

(** C2 as stated fails: a Content-Type header with two values does not
    fail the call. *)
Lemma malformed_content_type_does_not_fail :
  Header two_content_types !! "Content-Type"
  = Some ["application/json"; "text/plain"] /\
  get2_receives (service_answering InfoLevel two_content_types)
    state_endpoint two_content_types /\
  result (get2 (service_answering InfoLevel two_content_types) state_endpoint)
  = Ok (ref_httpResponse 200 RefContentTypeJSON RefDataVersionDeneb (bytes_of "{}")).
Proof.
  split; [reflexivity|]. split; [apply service_answering_receives|].
  reflexivity.
Qed.

(** C3 on a JSON body with a [version] member. *)
Lemma json_version_from_payload_witness :
  result (get2 (service_answering InfoLevel json_with_version) state_endpoint)
  = Ok (ref_httpResponse 200 RefContentTypeJSON RefDataVersionDeneb
          (rd_data (Body json_with_version))).
Proof.
  refine (proj2 (proj2 (json_version_from_payload
            (service_answering InfoLevel json_with_version) state_endpoint
            json_with_version
            [("version", quoted "deneb"); ("data", bytes_of "{}")]
            (service_answering_receives _ _ _)
            eq_refl ltac:(discriminate) eq_refl eq_refl eq_refl eq_refl))
          [] "version" (quoted "deneb") [("data", bytes_of "{}")]
          RefDataVersionDeneb eq_refl _ eq_refl eq_refl).
  intros k r Hin. apply list_elem_of_singleton in Hin. by injection Hin as -> ->.
Defined.

(** C3 as stated fails: a JSON body that parses and has no [version]
    member gives no decode error; the envelope holds the zero version. *)
Lemma json_without_version_is_no_error :
  @json_scan RefEnv (rd_data (Body json_without_version))
  = inr (json_object [("data", bytes_of "{}")]) /\
  Header json_without_version !! "Eth-Consensus-Version" = None /\
  get2_receives (service_answering InfoLevel json_without_version)
    state_endpoint json_without_version /\
  result (get2 (service_answering InfoLevel json_without_version) state_endpoint)
  = Ok (ref_httpResponse 200 RefContentTypeJSON RefDataVersionUnknown (rd_data (Body json_without_version))).
Proof.
  split; [reflexivity|]. split; [reflexivity|].
  split; [apply service_answering_receives|]. reflexivity.
Qed.

(** C4 on a binary response without a version header. *)
Lemma binary_without_version_header_fails_witness :
  result (get2 (service_answering InfoLevel ssz_without_version) state_endpoint)
  = Err (errors_Wrap (errors_New "no consensus version header")
           "failed to parse consensus version").
Proof.
  apply (proj2 (binary_without_version_header_fails ssz_without_version eq_refl)
           (service_answering InfoLevel ssz_without_version) state_endpoint
           (service_answering_receives _ _ _)
           eq_refl ltac:(discriminate) eq_refl ltac:(discriminate)).
Defined.

(** C5 on a binary response with a version header. *)
Lemma version_header_wins_witness :
  result (get2 (service_answering InfoLevel ssz_with_version) state_endpoint)
  = Ok (ref_httpResponse 200 RefContentTypeSSZ RefDataVersionCapella [x01; x02; x03]).
Proof.
  apply (proj1 (proj2 version_header_wins)
           (service_answering InfoLevel ssz_with_version) state_endpoint
           ssz_with_version "capella" RefDataVersionCapella
           (service_answering_receives _ _ _)
           eq_refl ltac:(discriminate) eq_refl eq_refl eq_refl).
Defined.

(** C6 on a 404 answer to a POST. *)
Lemma post_non_2xx_is_call_error_witness :
  result (post (service_answering InfoLevel not_found) state_endpoint
            (Some readable_body))
  = Err (http_Error "POST" state_endpoint 404 (bytes_of "{}")).
Proof.
  apply (post_non_2xx_is_call_error
           (service_answering InfoLevel not_found) state_endpoint
           (Some readable_body) not_found
           (service_answering_post_receives InfoLevel not_found state_endpoint
              readable_body eq_refl)
           eq_refl ltac:(discriminate)).
Defined.

(** C9 on a POST whose body reads to the end. *)
Lemma result_independent_of_log_level_witness :
  result (post (with_level TraceLevel (service_answering InfoLevel not_found))
            state_endpoint (Some readable_body))
  = result (post (with_level InfoLevel (service_answering InfoLevel not_found))
              state_endpoint (Some readable_body)).
Proof.
  apply (proj1 (proj2 (proj2 result_independent_of_log_level))
           (service_answering InfoLevel not_found) state_endpoint
           readable_body TraceLevel InfoLevel eq_refl).
Defined.

(** C9 as stated fails: with a request body whose reading fails, [post]
    with trace logging returns its own error before any request is sent,
    and without it returns the client's error. *)
Lemma post_result_depends_on_trace_logging :
  result (post (with_level TraceLevel (service_answering InfoLevel not_found))
            state_endpoint (Some failing_body))
  = Err (errors_New "failed to read request body") /\
  result (post (with_level InfoLevel (service_answering InfoLevel not_found))
            state_endpoint (Some failing_body))
  = Err (errors_Wrap (foreign "net/http" "request body could not be read")
           "failed to call POST endpoint") /\
  result (post (with_level TraceLevel (service_answering InfoLevel not_found))
            state_endpoint (Some failing_body))
  <> result (post (with_level InfoLevel (service_answering InfoLevel not_found))
               state_endpoint (Some failing_body)).
Proof.
  assert (Htrace :
    result (post (with_level TraceLevel (service_answering InfoLevel not_found))
              state_endpoint (Some failing_body))
    = Err (errors_New "failed to read request body")) by reflexivity.
  assert (Hinfo :
    result (post (with_level InfoLevel (service_answering InfoLevel not_found))
              state_endpoint (Some failing_body))
    = Err (errors_Wrap (foreign "net/http" "request body could not be read")
             "failed to call POST endpoint")) by reflexivity.
  split; [exact Htrace|]. split; [exact Hinfo|].
  rewrite Htrace, Hinfo. discriminate.
Qed.

End OnExamples.

(** * Further properties of the code *)

(** ** The SSZ codec, beyond the round trip *)
Section DenebCodecMore.
Import Deneb.

Lemma Z_of_byte_range (b : byte) : 0 <= Z_of_byte b < 256.
Proof. unfold Z_of_byte. pose proof (Byte.to_N_bounded b). lia. Qed.

Lemma Z_of_byte_inj (a b : byte) : Z_of_byte a = Z_of_byte b -> a = b.
Proof.
  unfold Z_of_byte. intros Heq. apply N2Z.inj in Heq.
  pose proof (Byte.of_to_N a) as Ha. rewrite Heq, Byte.of_to_N in Ha.
  congruence.
Qed.

Lemma Z_of_byte_high_bit (b : byte) (j : Z) :
  8 <= j -> Z.testbit (Z_of_byte b) j = false.
Proof.
  intros Hj. pose proof (Z_of_byte_range b) as Hb.
  destruct (Z.eq_dec (Z_of_byte b) 0) as [->|Hne]; [apply Z.bits_0|].
  apply Z.bits_above_log2; [lia|].
  apply Z.lt_le_trans with 8; [|lia].
  apply Z.log2_lt_pow2; lia.
Qed.

(** Bit [m] of a byte shifted to bit [k]. *)
Lemma shifted_byte_bit (b : byte) (k m : Z) :
  0 <= k -> 0 <= m ->
  Z.testbit (Z.shiftl (Z_of_byte b) k) m
  = (k <=? m) && (m <? k + 8) && Z.testbit (Z_of_byte b) (m - k).
Proof.
  intros Hk Hm. destruct (Z.leb_spec k m) as [Hle|Hlt]; cbn [andb].
  - rewrite Z.shiftl_spec by lia.
    destruct (Z.ltb_spec m (k + 8)); [reflexivity|].
    apply Z_of_byte_high_bit. lia.
  - apply Z.shiftl_spec_low. lia.
Qed.

Lemma lor_lt_2_64 (a b : Z) :
  0 <= a < 2 ^ 64 -> 0 <= b < 2 ^ 64 -> 0 <= Z.lor a b < 2 ^ 64.
Proof.
  intros Ha Hb.
  assert (Hnn : 0 <= Z.lor a b) by (apply Z.lor_nonneg; lia).
  split; [exact Hnn|].
  destruct (Z.eq_dec (Z.lor a b) 0) as [->|Hne]; [lia|].
  apply Z.log2_lt_pow2; [lia|]. rewrite Z.log2_lor by lia.
  apply Z.max_lub_lt.
  - destruct (Z.eq_dec a 0) as [->|]; [cbn; lia|]. apply Z.log2_lt_pow2; lia.
  - destruct (Z.eq_dec b 0) as [->|]; [cbn; lia|]. apply Z.log2_lt_pow2; lia.
Qed.

Lemma shifted_byte_lt_2_64 (b : byte) (k : Z) :
  0 <= k <= 56 -> 0 <= Z.shiftl (Z_of_byte b) k < 2 ^ 64.
Proof.
  intros Hk. pose proof (Z_of_byte_range b) as Hb.
  rewrite Z.shiftl_mul_pow2 by lia.
  assert (H2k : 0 < 2 ^ k) by (apply Z.pow_pos_nonneg; lia).
  assert (Hle : 2 ^ k <= 2 ^ 56) by (apply Z.pow_le_mono_r; lia).
  change (2 ^ 64) with (256 * 2 ^ 56). nia.
Qed.

(** Eight bytes always decode, to a [uint64]. *)
Lemma UnmarshallUint64_eight (l : list byte) :
  length l = 8%nat ->
  exists z, UnmarshallUint64 l = Some z /\ 0 <= z < 2 ^ 64 /\ PutUint64 z = l.
Proof.
  intros Hlen.
  destruct l as [|b0 [|b1 [|b2 [|b3 [|b4 [|b5 [|b6 [|b7 [|? ?]]]]]]]]];
    try discriminate.
  eexists. split; [reflexivity|]. split.
  - pose proof (shifted_byte_lt_2_64 b0 0 ltac:(lia)) as H0.
    rewrite Z.shiftl_0_r in H0.
    repeat apply lor_lt_2_64; try exact H0; apply shifted_byte_lt_2_64; lia.
  - unfold PutUint64.
    set (z := Z.lor _ _).
    assert (Hbit : forall m, 0 <= m ->
      Z.testbit z m =
      ((0 <=? m) && (m <? 0 + 8) && Z.testbit (Z_of_byte b0) (m - 0))
      || ((8 <=? m) && (m <? 8 + 8) && Z.testbit (Z_of_byte b1) (m - 8))
      || ((16 <=? m) && (m <? 16 + 8) && Z.testbit (Z_of_byte b2) (m - 16))
      || ((24 <=? m) && (m <? 24 + 8) && Z.testbit (Z_of_byte b3) (m - 24))
      || ((32 <=? m) && (m <? 32 + 8) && Z.testbit (Z_of_byte b4) (m - 32))
      || ((40 <=? m) && (m <? 40 + 8) && Z.testbit (Z_of_byte b5) (m - 40))
      || ((48 <=? m) && (m <? 48 + 8) && Z.testbit (Z_of_byte b6) (m - 48))
      || ((56 <=? m) && (m <? 56 + 8) && Z.testbit (Z_of_byte b7) (m - 56))).
    { intros m Hm. subst z. rewrite !Z.lor_spec.
      rewrite <- !shifted_byte_bit by lia. now rewrite Z.shiftl_0_r. }
    assert (Hbyte : forall (k : Z) (b : byte),
      0 <= k ->
      (forall n, 0 <= n < 8 -> Z.testbit z (n + k) = Z.testbit (Z_of_byte b) n) ->
      byte_of_Z (Z.shiftr z k) = b).
    { intros k b Hk Hb. apply Z_of_byte_inj. rewrite Z_of_byte_of_Z.
      apply Z.bits_inj'. intros n Hn. change 255 with (Z.ones 8).
      rewrite Z.land_spec, Z.shiftr_spec, Z.testbit_ones_nonneg by lia.
      destruct (Z.ltb_spec n 8).
      - rewrite andb_true_r. apply Hb. lia.
      - rewrite andb_false_r. symmetry. apply Z_of_byte_high_bit. lia. }
    assert (Hat : forall (k : Z) (b : byte),
      0 <= k ->
      (forall n, 0 <= n < 8 -> Z.testbit z (n + k) = Z.testbit (Z_of_byte b) n) ->
      byte_of_Z (Z.shiftr z k) = b) by exact Hbyte.
    specialize (Hbyte 0 b0). rewrite Z.shiftr_0_r in Hbyte.
    rewrite Hbyte, (Hat 8 b1), (Hat 16 b2), (Hat 24 b3), (Hat 32 b4),
      (Hat 40 b5), (Hat 48 b6), (Hat 56 b7);
      first [ reflexivity | lia
            | intros n Hn; rewrite Hbit by lia; decide_cmp; cbn [andb orb];
              rewrite ?orb_false_r; f_equal; lia ].
Qed.

Lemma split_at (n : nat) (l : list byte) :
  (n <= length l)%nat ->
  exists a b, l = a ++ b /\ length a = n /\ length b = (length l - n)%nat.
Proof.
  intros Hn. exists (take n l), (drop n l).
  rewrite take_drop, length_take, length_drop. repeat split; lia.
Qed.

(** Every buffer of 216 bytes is the encoding of a sidecar. *)
Lemma MarshalSSZ_onto (buf : list byte) :
  length buf = 216%nat ->
  exists v, valid v /\ (MarshalSSZ v).1 = buf.
Proof.
  intros Hlen.
  destruct (split_at 32 buf ltac:(lia)) as (f0 & r0 & -> & L0 & R0).
  rewrite length_app in Hlen.
  destruct (split_at 8 r0 ltac:(lia)) as (f1 & r1 & -> & L1 & R1).
  rewrite length_app in R0, Hlen.
  destruct (split_at 8 r1 ltac:(lia)) as (f2 & r2 & -> & L2 & R2).
  rewrite length_app in R1, R0, Hlen.
  destruct (split_at 32 r2 ltac:(lia)) as (f3 & r3 & -> & L3 & R3).
  rewrite length_app in R2, R1, R0, Hlen.
  destruct (split_at 8 r3 ltac:(lia)) as (f4 & r4 & -> & L4 & R4).
  rewrite length_app in R3, R2, R1, R0, Hlen.
  destruct (split_at 32 r4 ltac:(lia)) as (f5 & r5 & -> & L5 & R5).
  rewrite length_app in R4, R3, R2, R1, R0, Hlen.
  destruct (split_at 48 r5 ltac:(lia)) as (f6 & f7 & -> & L6 & R6).
  rewrite length_app in R5, R4, R3, R2, R1, R0, Hlen.
  destruct (UnmarshallUint64_eight f1 L1) as (z1 & _ & Hz1 & P1).
  destruct (UnmarshallUint64_eight f2 L2) as (z2 & _ & Hz2 & P2).
  destruct (UnmarshallUint64_eight f4 L4) as (z4 & _ & Hz4 & P4).
  exists {| BlockRoot := f0; Index := z1; Slot := z2; BlockParentRoot := f3;
            ProposerIndex := z4; BlobRoot := f5; KzgCommitment := f6;
            KzgProof := f7 |}.
  split.
  - unfold valid. cbn. repeat split; lia.
  - rewrite MarshalSSZ_fields.
    cbn [fst BlockRoot Index Slot BlockParentRoot ProposerIndex BlobRoot
         KzgCommitment KzgProof].
    by rewrite P1, P2, P4.
Qed.

(** X1. The encoding of a sidecar has [SizeSSZ] bytes, 216, and encoding
    never returns an error. *)
Theorem MarshalSSZ_has_SizeSSZ_bytes (v : BlindedBlobSidecar) :
  valid v ->
  (MarshalSSZ v).2 = None /\
  Z.of_nat (length (MarshalSSZ v).1) = SizeSSZ v.
Proof.
  intros Hv. split; [reflexivity|].
  rewrite (MarshalSSZ_length v Hv). reflexivity.
Qed.

(** X2. [MarshalSSZTo] appends the encoding to the buffer it is given and
    keeps what the buffer held. *)
Theorem MarshalSSZTo_appends (v : BlindedBlobSidecar) (buf : list byte) :
  MarshalSSZTo v buf = (buf ++ (MarshalSSZ v).1, None).
Proof.
  unfold MarshalSSZ, MarshalSSZTo, MarshalUint64. cbn [app fst].
  f_equal. rewrite <- !app_assoc. reflexivity.
Qed.

(** X3. Decoding a buffer of 216 bytes never panics and never fails: it
    gives a sidecar of the Go type, the same whatever the receiver held. *)
Theorem UnmarshalSSZ_decodes_every_216_bytes (buf : list byte) :
  length buf = 216%nat ->
  exists v, valid v /\
    forall b, valid b -> UnmarshalSSZ b buf = Some (v, None).
Proof.
  intros Hlen. destruct (MarshalSSZ_onto buf Hlen) as (v & Hv & <-).
  exists v. split; [exact Hv|]. intros b Hb.
  by apply UnmarshalSSZ_MarshalSSZ.
Qed.

(** X4. Encoding what was decoded gives the buffer back. *)
Theorem MarshalSSZ_UnmarshalSSZ (b v : BlindedBlobSidecar) (buf : list byte) :
  valid b ->
  UnmarshalSSZ b buf = Some (v, None) ->
  MarshalSSZ v = (buf, None).
Proof.
  intros Hb Hdec.
  assert (Hlen : length buf = 216%nat).
  { destruct (decide (length buf = 216%nat)) as [|Hne]; [done|].
    rewrite (UnmarshalSSZ_wrong_size b buf Hne) in Hdec. discriminate. }
  destruct (MarshalSSZ_onto buf Hlen) as (v' & Hv' & <-).
  rewrite (UnmarshalSSZ_MarshalSSZ v' b Hv' Hb) in Hdec.
  injection Hdec as <-. rewrite (MarshalSSZ_fields v'). reflexivity.
Qed.

(** X5. Two sidecars with the same encoding are equal. *)
Theorem MarshalSSZ_injective (v1 v2 : BlindedBlobSidecar) :
  valid v1 -> valid v2 ->
  (MarshalSSZ v1).1 = (MarshalSSZ v2).1 -> v1 = v2.
Proof.
  intros H1 H2 Heq.
  pose proof (UnmarshalSSZ_MarshalSSZ v1 v1 H1 H1) as E1.
  pose proof (UnmarshalSSZ_MarshalSSZ v2 v1 H2 H1) as E2.
  rewrite Heq, E2 in E1. congruence.
Qed.

End DenebCodecMore.

(** ** The transport, beyond the claims *)
Section TransportMore.
Import HTTP.
Context `{Env}.

(** The errors of the three request builders are wrapped errors. *)
Lemma get2_request_error (s : Service) (endpoint : string) (err : error) :
  get2_request s endpoint = inl err -> exists cause msg, err = errors_Wrap cause msg.
Proof.
  unfold get2_request. destruct (url_Parse _) as [e|url]; [intros [= <-]; eauto|].
  destruct (http_NewRequestWithContext _ _ _) as [e|req]; [intros [= <-]; eauto|].
  discriminate.
Qed.

Lemma get_request_error (s : Service) (endpoint : string) (err : error) :
  get_request s endpoint = inl err -> exists cause msg, err = errors_Wrap cause msg.
Proof.
  unfold get_request. destruct (url_Parse _) as [e|url]; [intros [= <-]; eauto|].
  destruct (http_NewRequestWithContext _ _ _) as [e|req]; [intros [= <-]; eauto|].
  discriminate.
Qed.

Lemma post_request_error (s : Service) (endpoint : string)
    (body : option Reader) (err : error) :
  post_request s endpoint body = inl err ->
  exists cause msg, err = errors_Wrap cause msg.
Proof.
  unfold post_request. destruct (url_Parse _) as [e|url]; [intros [= <-]; eauto|].
  destruct (http_NewRequestWithContext _ _ _) as [e|req]; [intros [= <-]; eauto|].
  discriminate.
Qed.

(** X6. [get]: a 404 gives a [nil] reader and no error, without reading the
    body; any other status outside 2xx gives the [Error] value; every 2xx
    status, 204 included, gives a reader over the body; a body that cannot
    be read gives that error, wrapped. *)
Theorem get_status_classification
    (s : Service) (endpoint : string) (resp : Response) :
  get_receives s endpoint resp ->
  (StatusCode resp = StatusNotFound -> result (get s endpoint) = Ok None) /\
  (StatusCode resp <> StatusNotFound ->
   forall err, rd_err (Body resp) = Some err ->
   result (get s endpoint) = Err (errors_Wrap err "failed to read GET response")) /\
  (StatusCode resp <> StatusNotFound ->
   rd_err (Body resp) = None ->
   Z.quot (StatusCode resp) 100 <> 2 ->
   result (get s endpoint)
   = Err (http_Error MethodGet endpoint (StatusCode resp) (rd_data (Body resp)))) /\
  (rd_err (Body resp) = None ->
   Z.quot (StatusCode resp) 100 = 2 ->
   result (get s endpoint) = Ok (Some (bytes_NewReader (rd_data (Body resp))))).
Proof.
  intros (req & Hreq & Hresp). rewrite get_result, Hreq, Hresp.
  split; [|split; [|split]].
  - intros E. by rewrite decide_True by done.
  - intros N err Hread. by rewrite decide_False, Hread by done.
  - intros N Hread Hfam. by rewrite decide_False, Hread, decide_True by done.
  - intros Hread Hfam.
    rewrite decide_False, Hread, decide_False; [done|by intros []|].
    intros E. rewrite E in Hfam. discriminate.
Qed.

(** X7. [post]: every 2xx status gives a reader over the response body; a
    response body that cannot be read gives that error, wrapped, whatever
    the status. *)
Theorem post_2xx_returns_body
    (s : Service) (endpoint : string) (body : option Reader) (resp : Response) :
  post_receives s endpoint body resp ->
  (rd_err (Body resp) = None ->
   Z.quot (StatusCode resp) 100 = 2 ->
   result (post s endpoint body) = Ok (bytes_NewReader (rd_data (Body resp)))) /\
  (forall err, rd_err (Body resp) = Some err ->
   result (post s endpoint body)
   = Err (errors_Wrap err "failed to read POST response")).
Proof.
  intros (body' & req & Hbody & Hreq & Hresp).
  rewrite post_result, Hbody, Hreq, Hresp. split.
  - intros Hread Hfam. rewrite Hread, decide_False; [done|by intros []].
  - intros err Hread. by rewrite Hread.
Qed.

(** X8. [post] with trace logging enabled reads the request body before
    anything else: a [nil] body panics, and a body that cannot be read
    gives "failed to read request body", whatever the address and the
    client are.  With trace logging disabled a [nil] body is sent as it
    is. *)
Theorem post_reads_body_when_tracing (s : Service) (endpoint : string) :
  (level (log s) <= TraceLevel ->
   result (post s endpoint None)
   = Panic "invalid memory address or nil pointer dereference") /\
  (level (log s) <= TraceLevel ->
   forall r err, rd_err r = Some err ->
   result (post s endpoint (Some r))
   = Err (errors_New "failed to read request body")) /\
  (TraceLevel < level (log s) ->
   forall resp, post_receives s endpoint None resp ->
   exists req, post_request s endpoint None = inr req /\
               client s req = inr resp).
Proof.
  assert (HE : Enabled (call_log s endpoint) TraceLevel
               = bool_decide (level (log s) <= TraceLevel)) by reflexivity.
  split; [|split].
  - intros Hlvl. rewrite post_result, post_body_result, HE.
    by rewrite bool_decide_eq_true_2 by done.
  - intros Hlvl r err Hread. rewrite post_result, post_body_result, HE.
    by rewrite bool_decide_eq_true_2, Hread by done.
  - intros Hlvl resp (body' & req & Hbody & Hreq & Hresp).
    rewrite post_body_result, HE, bool_decide_eq_false_2 in Hbody by lia.
    injection Hbody as <-. eauto.
Qed.

(** X9. An [Error] value comes from a response and from nothing else:
    when [get2], [get] or [post] returns one, the call received a response
    whose body was read and whose status is outside 2xx (and, for the two
    GET functions, not 404), and the value carries the method, the
    endpoint, that status and that body. *)
Theorem call_error_comes_from_a_response
    (s : Service) (endpoint : string)
    (method endpoint' : string) (code : Z) (data : list byte) :
  (result (get2 s endpoint) = Err (http_Error method endpoint' code data) ->
   method = MethodGet /\ endpoint' = endpoint /\ code <> StatusNotFound /\
   Z.quot code 100 <> 2 /\
   exists resp, get2_receives s endpoint resp /\ StatusCode resp = code /\
                rd_err (Body resp) = None /\ rd_data (Body resp) = data) /\
  (result (get s endpoint) = Err (http_Error method endpoint' code data) ->
   method = MethodGet /\ endpoint' = endpoint /\ code <> StatusNotFound /\
   Z.quot code 100 <> 2 /\
   exists resp, get_receives s endpoint resp /\ StatusCode resp = code /\
                rd_err (Body resp) = None /\ rd_data (Body resp) = data) /\
  (forall body,
   result (post s endpoint body) = Err (http_Error method endpoint' code data) ->
   method = MethodPost /\ endpoint' = endpoint /\ Z.quot code 100 <> 2 /\
   exists resp, post_receives s endpoint body resp /\ StatusCode resp = code /\
                rd_err (Body resp) = None /\ rd_data (Body resp) = data).
Proof.
  split; [|split].
  - rewrite get2_result.
    destruct (get2_request s endpoint) as [err|req] eqn:Hreq.
    { destruct (get2_request_error _ _ _ Hreq) as (c & m & ->). discriminate. }
    destruct (client s req) as [err|resp] eqn:Hresp; [discriminate|].
    rewrite get2_response_result.
    destruct (decide (_ \/ _)) as [|Hnot]; [discriminate|].
    destruct (rd_err (Body resp)) as [err|] eqn:Hread; [discriminate|].
    destruct (decide (Z.quot (StatusCode resp) 100 <> 2)) as [Hfam|Hfam].
    + intros [= <- <- <- <-]. repeat split; [tauto | done |].
      exists resp. repeat split; [exists req|..]; done.
    + destruct (populateConsensusVersion _ resp) as [res [err|]]; discriminate.
  - rewrite get_result.
    destruct (get_request s endpoint) as [err|req] eqn:Hreq.
    { destruct (get_request_error _ _ _ Hreq) as (c & m & ->). discriminate. }
    destruct (client s req) as [err|resp] eqn:Hresp; [discriminate|].
    destruct (decide (StatusCode resp = StatusNotFound)) as [|Hnot]; [discriminate|].
    destruct (rd_err (Body resp)) as [err|] eqn:Hread; [discriminate|].
    destruct (decide (Z.quot (StatusCode resp) 100 <> 2)) as [Hfam|Hfam];
      [|discriminate].
    intros [= <- <- <- <-]. repeat split; [done | done |].
    exists resp. repeat split; [exists req|..]; done.
  - intros body. rewrite post_result.
    destruct (result (post_body _ body)) as [body'|e|msg] eqn:Hbody;
      [| |discriminate].
    2: { rewrite post_body_result in Hbody.
         destruct (Enabled _ _); [|discriminate].
         destruct body as [r|]; [|discriminate].
         destruct (rd_err r); [|discriminate].
         injection Hbody as <-. discriminate. }
    destruct (post_request s endpoint body') as [err|req] eqn:Hreq.
    { destruct (post_request_error _ _ _ _ Hreq) as (c & m & ->). discriminate. }
    destruct (client s req) as [err|resp] eqn:Hresp; [discriminate|].
    destruct (rd_err (Body resp)) as [err|] eqn:Hread; [discriminate|].
    destruct (decide (Z.quot (StatusCode resp) 100 <> 2)) as [Hfam|Hfam];
      [|discriminate].
    intros [= <- <- <- <-]. repeat split; [done|].
    exists resp. repeat split; [exists body', req|..]; done.
Qed.

(** X10. An envelope [get2] returns is the envelope of a response it
    received: for a 404 or a 204 it has that status, an empty body and the
    zero content type and version; otherwise the status is 2xx and the
    envelope has the response's body and the content type settled on.  So
    its body is empty unless the status is 2xx and not 204. *)
Theorem get2_envelope_is_of_a_response
    (s : Service) (endpoint : string) (res : httpResponse) :
  result (get2 s endpoint) = Ok res ->
  exists resp,
    get2_receives s endpoint resp /\
    statusCode res = StatusCode resp /\
    (((StatusCode resp = StatusNotFound \/ StatusCode resp = StatusNoContent) /\
      body res = [] /\ contentType res = ContentType_zero /\
      consensusVersion res = DataVersion_zero) \/
     (Z.quot (StatusCode resp) 100 = 2 /\ StatusCode resp <> StatusNoContent /\
      rd_err (Body resp) = None /\
      body res = rd_data (Body resp) /\
      contentType res = resolved_contentType resp)).
Proof.
  rewrite get2_result.
  destruct (get2_request s endpoint) as [err|req] eqn:Hreq; [discriminate|].
  destruct (client s req) as [err|resp] eqn:Hresp; [discriminate|].
  rewrite get2_response_result. intros Hres.
  exists resp. split; [by exists req|].
  destruct (decide (_ \/ _)) as [Hcode|Hnot].
  { injection Hres as <-. split; [done|]. left. done. }
  destruct (rd_err (Body resp)) as [err|] eqn:Hread; [discriminate|].
  destruct (decide (Z.quot (StatusCode resp) 100 <> 2)) as [Hfam|Hfam];
    [discriminate|].
  pose proof (populateConsensusVersion_fields
                (envelope resp (resolved_contentType resp)) resp) as Hf.
  destruct (populateConsensusVersion _ resp) as [res' [err|]];
    cbn [fst] in Hf; [discriminate|].
  injection Hres as <-. rewrite Hf. split; [done|]. right.
  repeat split; [|tauto]. destruct (decide (Z.quot (StatusCode resp) 100 = 2)); tauto.
Qed.

(** X11. Each of the two resolutions writes one field of the envelope:
    [populateContentType] leaves the status, the version and the body as
    they were, [populateConsensusVersion] the status, the content type and
    the body. *)
Theorem resolutions_write_one_field (res : httpResponse) (resp : Response) :
  (statusCode (populateContentType res resp).1 = statusCode res /\
   consensusVersion (populateContentType res resp).1 = consensusVersion res /\
   body (populateContentType res resp).1 = body res) /\
  (statusCode (populateConsensusVersion res resp).1 = statusCode res /\
   contentType (populateConsensusVersion res resp).1 = contentType res /\
   body (populateConsensusVersion res resp).1 = body res).
Proof.
  split.
  - rewrite (populateContentType_fields res resp). done.
  - rewrite (populateConsensusVersion_fields res resp). done.
Qed.

(** X12. A consensus-version header with no value or with several is an
    error, "malformed consensus version", with the number of values: the
    version stays [DataVersionUnknown], the body is not looked at, and
    [get2] returns the error, wrapped. *)
Theorem malformed_version_header_fails
    (resp : Response) (values : list string) :
  Header resp !! "Eth-Consensus-Version" = Some values ->
  length values <> 1%nat ->
  (forall res : httpResponse,
     populateConsensusVersion res resp
     = (set_consensusVersion DataVersionUnknown res,
        Some (fmt_Errorf "malformed consensus version (%d entries)"
                (Z.of_nat (length values))))) /\
  (forall (s : Service) (endpoint : string),
     get2_receives s endpoint resp ->
     Z.quot (StatusCode resp) 100 = 2 ->
     StatusCode resp <> StatusNoContent ->
     rd_err (Body resp) = None ->
     result (get2 s endpoint)
     = Err (errors_Wrap
              (fmt_Errorf "malformed consensus version (%d entries)"
                 (Z.of_nat (length values)))
              "failed to parse consensus version")).
Proof.
  intros Hhdr Hlen.
  assert (Hpop : forall res : httpResponse,
     populateConsensusVersion res resp
     = (set_consensusVersion DataVersionUnknown res,
        Some (fmt_Errorf "malformed consensus version (%d entries)"
                (Z.of_nat (length values))))).
  { intros res. unfold populateConsensusVersion. rewrite Hhdr.
    destruct values as [|v [|v' vs]]; [reflexivity | done | reflexivity]. }
  split; [exact Hpop|].
  intros s endpoint Hrecv Hfam H204 Hread.
  rewrite (get2_success_path _ _ _ Hrecv Hfam H204 Hread), Hpop. reflexivity.
Qed.

(** X13. A consensus-version header whose one value
    [DataVersion.UnmarshalJSON] rejects fails the call: [get2] returns that
    error wrapped twice, and does not fall back on the body. *)
Theorem unparseable_version_header_fails
    (s : Service) (endpoint : string) (resp : Response)
    (version : string) (v : DataVersion) (err : error) :
  get2_receives s endpoint resp ->
  Z.quot (StatusCode resp) 100 = 2 ->
  StatusCode resp <> StatusNoContent ->
  rd_err (Body resp) = None ->
  Header resp !! "Eth-Consensus-Version" = Some [version] ->
  DataVersion_UnmarshalJSON DataVersionUnknown (fmt_Sprintf_q version)
  = (v, Some err) ->
  result (get2 s endpoint)
  = Err (errors_Wrap (errors_Wrap err "failed to parse consensus version")
           "failed to parse consensus version").
Proof.
  intros Hrecv Hfam H204 Hread Hhdr Hv.
  rewrite (get2_success_path _ _ _ Hrecv Hfam H204 Hread).
  unfold populateConsensusVersion. rewrite Hhdr.
  cbn [set_consensusVersion consensusVersion]. rewrite Hv. reflexivity.
Qed.

(** X14. Without a consensus-version header and with a JSON content type,
    a body that is not a JSON object decides the call by its kind: invalid
    JSON and a value that is no object (an array, a string, a number, a
    boolean) fail it with the decoding error wrapped twice; [null] succeeds
    with the zero version. *)
Theorem json_body_that_is_no_object
    (s : Service) (endpoint : string) (resp : Response) :
  get2_receives s endpoint resp ->
  Z.quot (StatusCode resp) 100 = 2 ->
  StatusCode resp <> StatusNoContent ->
  rd_err (Body resp) = None ->
  resolved_contentType resp = ContentTypeJSON ->
  Header resp !! "Eth-Consensus-Version" = None ->
  (forall err, json_scan (rd_data (Body resp)) = inl err ->
     result (get2 s endpoint)
     = Err (errors_Wrap
              (errors_Wrap err
                 "no consensus version header and failed to parse response")
              "failed to parse consensus version")) /\
  (forall kind, json_scan (rd_data (Body resp)) = inr (json_other kind) ->
     result (get2 s endpoint)
     = Err (errors_Wrap
              (errors_Wrap (foreign "json.UnmarshalTypeError" kind)
                 "no consensus version header and failed to parse response")
              "failed to parse consensus version")) /\
  (json_scan (rd_data (Body resp)) = inr json_null ->
     result (get2 s endpoint) = Ok (envelope resp ContentTypeJSON)).
Proof.
  intros Hrecv Hfam H204 Hread Hct Hhdr.
  rewrite (get2_success_path _ _ _ Hrecv Hfam H204 Hread), Hct.
  unfold populateConsensusVersion. rewrite Hhdr.
  cbn [set_consensusVersion envelope contentType body].
  rewrite decide_False by (intros Hne; by apply Hne).
  unfold json_Unmarshal.
  split; [|split]; [intros err Hscan | intros kind Hscan | intros Hscan];
    rewrite Hscan; reflexivity.
Qed.

(** *** The request sent *)

Lemma foldl_Header_Add (extra : list (string * string))
    (h : gmap string (list string)) (k : string) :
  default [] (foldl (λ h kv, Header_Add h kv.1 kv.2) h extra !! k)
  = default [] (h !! k)
    ++ (snd <$> filter (λ kv, CanonicalMIMEHeaderKey kv.1 = k) extra).
Proof.
  revert h. induction extra as [|[k0 v0] extra IH]; intros h.
  - cbn. by rewrite app_nil_r.
  - cbn [foldl]. rewrite IH. unfold Header_Add. cbn [fst snd].
    destruct (decide (CanonicalMIMEHeaderKey k0 = k)) as [<-|Hne].
    + rewrite lookup_insert_eq, filter_cons_True by done.
      cbn [default]. rewrite fmap_cons. cbn [snd]. unfold id.
      rewrite <- app_assoc. reflexivity.
    + rewrite lookup_insert_ne, filter_cons_False by done. reflexivity.
Qed.

(** X15. [addExtraHeaders] adds and never replaces: under each canonical
    key the request has the values it had, then the values of the extra
    headers with that key, in order; method, address and body are as they
    were. *)
Theorem addExtraHeaders_appends (s : Service) (req : Request) (k : string) :
  default [] (req_Header (addExtraHeaders s req) !! k)
  = default [] (req_Header req !! k)
    ++ (snd <$> filter (λ kv, CanonicalMIMEHeaderKey kv.1 = k) (extraHeaders s)) /\
  req_Method (addExtraHeaders s req) = req_Method req /\
  req_URL (addExtraHeaders s req) = req_URL req /\
  req_Body (addExtraHeaders s req) = req_Body req.
Proof.
  split; [|done]. unfold addExtraHeaders. cbn [with_Header req_Header].
  apply foldl_Header_Add.
Qed.

(** What the request builders start from. *)
Lemma get2_request_inv (s : Service) (endpoint : string) (req : Request) :
  get2_request s endpoint = inr req ->
  exists url req0,
    url_Parse (call_url s endpoint) = inr url /\
    http_NewRequestWithContext MethodGet (URL_String url) None = inr req0 /\
    req = with_Header (addExtraHeaders s req0)
            (Header_Set (req_Header (addExtraHeaders s req0)) "Accept"
               "application/octet-stream;q=1,application/json;q=0.9").
Proof.
  unfold get2_request.
  destruct (url_Parse _) as [e|url] eqn:Hu; [discriminate|].
  destruct (http_NewRequestWithContext _ _ _) as [e|req0] eqn:Hn; [discriminate|].
  intros [= <-]. exists url, req0. done.
Qed.

(** X16. The request [get2] sends has one [Accept] value, the one that
    prefers SSZ, whatever the extra headers say; an extra header under
    another key is sent; and the request has the method, address and body
    [http.NewRequestWithContext] gave it for a GET of the call's address
    with no body. *)
Theorem get2_request_headers (s : Service) (endpoint : string) (req : Request) :
  get2_request s endpoint = inr req ->
  req_Header req !! CanonicalMIMEHeaderKey "Accept"
  = Some ["application/octet-stream;q=1,application/json;q=0.9"] /\
  Header_Get (req_Header req) "Accept"
  = "application/octet-stream;q=1,application/json;q=0.9" /\
  (forall k v,
     (k, v) ∈ extraHeaders s ->
     CanonicalMIMEHeaderKey k <> CanonicalMIMEHeaderKey "Accept" ->
     v ∈ default [] (req_Header req !! CanonicalMIMEHeaderKey k)) /\
  exists url req0,
    url_Parse (call_url s endpoint) = inr url /\
    http_NewRequestWithContext MethodGet (URL_String url) None = inr req0 /\
    req_Method req = req_Method req0 /\ req_URL req = req_URL req0 /\
    req_Body req = req_Body req0.
Proof.
  intros Hreq. destruct (get2_request_inv _ _ _ Hreq) as (url & req0 & Hu & Hn & ->).
  cbn [with_Header req_Header]. unfold Header_Set, Header_Get.
  rewrite !lookup_insert_eq. repeat split.
  - intros k v Hin Hne. rewrite lookup_insert_ne by done.
    destruct (addExtraHeaders_appends s req0 (CanonicalMIMEHeaderKey k))
      as (-> & _).
    apply elem_of_app. right. apply list_elem_of_fmap. exists (k, v).
    split; [done|]. by apply list_elem_of_filter.
  - exists url, req0. done.
Qed.

Lemma filter_no_key (extra : list (string * string)) (k : string) :
  (forall k' v, (k', v) ∈ extra -> CanonicalMIMEHeaderKey k' <> k) ->
  filter (λ kv, CanonicalMIMEHeaderKey kv.1 = k) extra = [].
Proof.
  induction extra as [|[k0 v0] extra IH]; intros Hno; [reflexivity|].
  rewrite filter_cons_False by (cbn; apply (Hno k0 v0), list_elem_of_here).
  apply IH. intros k' v Hin. apply (Hno k' v). by apply list_elem_of_further.
Qed.

Lemma post_request_inv (s : Service) (endpoint : string)
    (body : option Reader) (req : Request) :
  post_request s endpoint body = inr req ->
  exists url req0,
    url_Parse (call_url s endpoint) = inr url /\
    http_NewRequestWithContext MethodPost (URL_String url) body = inr req0 /\
    let h1 := Header_Set (Header_Set (req_Header (addExtraHeaders s req0))
                            "Content-Type" "application/json")
                "Accept" "application/json" in
    req_Header req
    = (if decide (Header_Get h1 "User-Agent" = "")
       then Header_Set h1 "User-Agent" "go-eth2-client/0.18.3" else h1) /\
    req_Method req = req_Method req0 /\ req_URL req = req_URL req0 /\
    req_Body req = req_Body req0.
Proof.
  unfold post_request.
  destruct (url_Parse _) as [e|url] eqn:Hu; [discriminate|].
  destruct (http_NewRequestWithContext _ _ _) as [e|req0] eqn:Hn; [discriminate|].
  intros [= <-]. exists url, req0. split; [done|]. split; [done|].
  cbn [with_Header req_Header]. destruct (decide _); done.
Qed.

(** X17. The request [post] sends, when the three header names have
    different canonical keys: one [Content-Type] and one [Accept] value,
    both JSON, whatever the extra headers say; a [User-Agent] that is not
    empty, and the library's own when neither the new request nor the extra
    headers set one; the body is the one the request was made with. *)
Theorem post_request_headers
    (s : Service) (endpoint : string) (body : option Reader) (req : Request) :
  CanonicalMIMEHeaderKey "Accept" <> CanonicalMIMEHeaderKey "Content-Type" ->
  CanonicalMIMEHeaderKey "User-Agent" <> CanonicalMIMEHeaderKey "Content-Type" ->
  CanonicalMIMEHeaderKey "User-Agent" <> CanonicalMIMEHeaderKey "Accept" ->
  post_request s endpoint body = inr req ->
  req_Header req !! CanonicalMIMEHeaderKey "Content-Type"
  = Some ["application/json"] /\
  req_Header req !! CanonicalMIMEHeaderKey "Accept"
  = Some ["application/json"] /\
  Header_Get (req_Header req) "User-Agent" <> "" /\
  exists url req0,
    url_Parse (call_url s endpoint) = inr url /\
    http_NewRequestWithContext MethodPost (URL_String url) body = inr req0 /\
    req_Body req = req_Body req0 /\
    (req_Header req0 !! CanonicalMIMEHeaderKey "User-Agent" = None ->
     (forall k v, (k, v) ∈ extraHeaders s ->
        CanonicalMIMEHeaderKey k <> CanonicalMIMEHeaderKey "User-Agent") ->
     req_Header req !! CanonicalMIMEHeaderKey "User-Agent"
     = Some ["go-eth2-client/0.18.3"]).
Proof.
  intros Hac Huc Hua Hreq.
  destruct (post_request_inv _ _ _ _ Hreq)
    as (url & req0 & Hu & Hn & Hh & Hm & Hurl & Hb).
  cbn zeta in Hh. set (h0 := req_Header (addExtraHeaders s req0)) in *.
  set (h1 := Header_Set (Header_Set h0 "Content-Type" "application/json")
               "Accept" "application/json") in *.
  assert (Hct1 : h1 !! CanonicalMIMEHeaderKey "Content-Type"
                 = Some ["application/json"]).
  { unfold h1, Header_Set. by rewrite lookup_insert_ne, lookup_insert_eq. }
  assert (Hacc1 : h1 !! CanonicalMIMEHeaderKey "Accept"
                  = Some ["application/json"]).
  { unfold h1, Header_Set. by rewrite lookup_insert_eq. }
  assert (Hua1 : h1 !! CanonicalMIMEHeaderKey "User-Agent"
                 = h0 !! CanonicalMIMEHeaderKey "User-Agent").
  { unfold h1, Header_Set. by rewrite !lookup_insert_ne. }
  rewrite Hh. destruct (decide (Header_Get h1 "User-Agent" = "")) as [Hempty|Hset].
  - unfold Header_Set at 1 2 3. unfold Header_Get.
    rewrite !lookup_insert_ne by done. rewrite lookup_insert_eq.
    repeat split; [done | done | done |].
    exists url, req0. repeat split; try done.
    intros _ _. unfold Header_Set. by rewrite lookup_insert_eq.
  - repeat split; [done | done | done |].
    exists url, req0. repeat split; try done.
    intros Hnone Hextra. exfalso. apply Hset. unfold Header_Get. rewrite Hua1.
    pose proof (proj1 (addExtraHeaders_appends s req0
                         (CanonicalMIMEHeaderKey "User-Agent"))) as Hvals.
    fold h0 in Hvals. rewrite Hnone in Hvals. cbn [default app] in Hvals.
    rewrite (filter_no_key _ _ Hextra) in Hvals.
    destruct (h0 !! CanonicalMIMEHeaderKey "User-Agent") as [[|v vs]|];
      cbn in Hvals; [done | discriminate | done].
Qed.

End TransportMore.

(** ** What the calls log *)
Section TransportLogs.
Import HTTP.
Context `{Env}.

Lemma emitted_bind {A B} (m : Tx A) (f : A -> Tx B) :
  emitted (m ≫= f) =
  emitted m ++ match result m with Ok a => emitted (f a) | _ => [] end.
Proof.
  destruct m as [w [a|e|msg]]; cbn; [destruct (f a)|..];
    cbn; by rewrite ?app_nil_r.
Qed.

Lemma filtered_bind {A B} (lvl : Z) (m m' : Tx A) (f f' : A -> Tx B) :
  filtered_run lvl m m' ->
  (forall a, filtered_run lvl (f a) (f' a)) ->
  filtered_run lvl (m ≫= f) (m' ≫= f').
Proof.
  intros [Hr Hw] Hf. split.
  - rewrite !result_bind, Hr. destruct (result m'); [apply Hf|done..].
  - rewrite !emitted_bind, Hr, Hw, List.filter_app.
    destruct (result m') as [a| |]; [|done..]. by rewrite (proj2 (Hf a)).
Qed.

Lemma filtered_Msg (lvl : Z) (ctx : list (string * Field)) (l : Z)
    (fields : list (string * Field)) (msg : string) :
  TraceLevel <= l ->
  filtered_run lvl
    (Msg {| level := lvl; context := ctx |} l fields msg)
    (Msg {| level := TraceLevel; context := ctx |} l fields msg).
Proof.
  intros Hl. unfold filtered_run, Msg, Enabled. cbn [level context].
  rewrite (bool_decide_eq_true_2 (TraceLevel <= l)) by done.
  cbn. by destruct (bool_decide (lvl <= l)).
Qed.

Lemma filtered_emit (lvl : Z) (ev : Event) :
  written_at lvl ev = true -> filtered_run lvl (emit ev) (emit ev).
Proof. intros Hw. split; [done|]. cbn. by rewrite Hw. Qed.

Lemma filtered_mret {A} (lvl : Z) (a : A) :
  filtered_run lvl (mret a : Tx A) (mret a).
Proof. by split. Qed.

Lemma filtered_fail {A} (lvl : Z) (e : error) :
  filtered_run lvl (fail e : Tx A) (fail e).
Proof. by split. Qed.

Lemma filtered_with_span {A} (lvl : Z) (name : string) (m m' : Tx A) :
  filtered_run lvl m m' ->
  filtered_run lvl (with_span name m) (with_span name m').
Proof.
  destruct m as [w r], m' as [w' r']. intros [Hr Hw]. cbn in Hr, Hw. subst.
  split; [done|]. cbn. rewrite List.filter_app. cbn. done.
Qed.

(** The steps of a call, matched one by one. *)
Ltac filtered_steps :=
  repeat first
    [ apply filtered_mret | apply filtered_fail
    | apply filtered_emit; reflexivity
    | apply filtered_Msg; (unfold TraceLevel, DebugLevel, WarnLevel; lia)
    | apply filtered_bind; [|intros ?] ].

Lemma filtered_get2_response (lvl : Z) (ctx : list (string * Field))
    (endpoint : string) (resp : Response) :
  filtered_run lvl
    (get2_response {| level := lvl; context := ctx |} endpoint resp)
    (get2_response {| level := TraceLevel; context := ctx |} endpoint resp).
Proof.
  unfold get2_response, With, io_ReadAll. cbn [level context].
  destruct (decide (StatusCode resp = StatusNotFound)); [filtered_steps|].
  destruct (decide (StatusCode resp = StatusNoContent)); [filtered_steps|].
  destruct (rd_err (Body resp)); [filtered_steps|].
  destruct (decide (Z.quot (StatusCode resp) 100 <> 2)); [filtered_steps|].
  destruct (populateContentType _ resp) as [res [err|]]; filtered_steps;
    destruct (populateConsensusVersion _ resp) as [res' [err'|]]; filtered_steps.
Qed.

(** X19. Raising the log level only drops entries: what [get2], [get] and
    [post] emit at a level is what they emit at trace level, less the log
    entries below that level, in the same order; the calls on the span are
    all kept.  For [post] this holds when the request body reads to the
    end. *)
Theorem log_level_only_filters (s : Service) (endpoint : string) (lvl : Z) :
  emitted (get2 (with_level lvl s) endpoint)
  = List.filter (written_at lvl)
      (emitted (get2 (with_level TraceLevel s) endpoint)) /\
  emitted (get (with_level lvl s) endpoint)
  = List.filter (written_at lvl)
      (emitted (get (with_level TraceLevel s) endpoint)) /\
  (forall r, rd_err r = None ->
     emitted (post (with_level lvl s) endpoint (Some r))
     = List.filter (written_at lvl)
         (emitted (post (with_level TraceLevel s) endpoint (Some r)))).
Proof.
  split; [|split].
  - apply (@proj2 (result (get2 (with_level lvl s) endpoint)
                   = result (get2 (with_level TraceLevel s) endpoint))).
    change (filtered_run lvl (get2 (with_level lvl s) endpoint)
              (get2 (with_level TraceLevel s) endpoint)).
    unfold get2. apply filtered_with_span.
    unfold call_log, With. cbn [with_level log level context address].
    change (get2_request (with_level lvl s) endpoint)
      with (get2_request (with_level TraceLevel s) endpoint).
    apply filtered_bind; [filtered_steps|intros _].
    destruct (get2_request _ endpoint) as [err|req]; [filtered_steps|].
    apply filtered_bind; [filtered_steps|intros _].
    change (client (with_level lvl s) req)
      with (client (with_level TraceLevel s) req).
    destruct (client _ req) as [err|resp]; [filtered_steps|].
    apply filtered_get2_response.
  - apply (@proj2 (result (get (with_level lvl s) endpoint)
                   = result (get (with_level TraceLevel s) endpoint))).
    change (filtered_run lvl (get (with_level lvl s) endpoint)
              (get (with_level TraceLevel s) endpoint)).
    unfold get, call_log, With, io_ReadAll.
    cbn [with_level log level context address].
    change (get_request (with_level lvl s) endpoint)
      with (get_request (with_level TraceLevel s) endpoint).
    apply filtered_bind; [filtered_steps|intros _].
    destruct (get_request _ endpoint) as [err|req]; [filtered_steps|].
    change (client (with_level lvl s) req)
      with (client (with_level TraceLevel s) req).
    destruct (client _ req) as [err|resp]; [filtered_steps|].
    destruct (decide _); [filtered_steps|].
    destruct (rd_err (Body resp)); [filtered_steps|].
    destruct (decide _); filtered_steps.
  - intros r Hread.
    apply (@proj2 (result (post (with_level lvl s) endpoint (Some r))
                   = result (post (with_level TraceLevel s) endpoint (Some r)))).
    change (filtered_run lvl (post (with_level lvl s) endpoint (Some r))
              (post (with_level TraceLevel s) endpoint (Some r))).
    unfold post, call_log, With, io_ReadAll.
    cbn [with_level log level context address].
    apply filtered_bind.
    + unfold post_body, io_ReadAll, Enabled. cbn [level]. rewrite Hread.
      rewrite (bool_decide_eq_true_2 (TraceLevel <= TraceLevel)) by done.
      destruct (bool_decide (lvl <= TraceLevel)) eqn:E.
      * filtered_steps.
      * split.
        -- rewrite result_bind, result_Msg, result_mret.
           by rewrite (bytes_NewReader_rd_data r Hread).
        -- unfold Msg, Enabled. cbn [level context].
           rewrite (bool_decide_eq_true_2 (TraceLevel <= TraceLevel)) by done.
           cbn. by rewrite E.
    + intros body'.
      change (post_request (with_level lvl s) endpoint body')
        with (post_request (with_level TraceLevel s) endpoint body').
      destruct (post_request _ endpoint body') as [err|req]; [filtered_steps|].
      change (client (with_level lvl s) req)
        with (client (with_level TraceLevel s) req).
      destruct (client _ req) as [err|resp]; [filtered_steps|].
      destruct (rd_err (Body resp)); [filtered_steps|].
      destruct (decide _); filtered_steps.
Qed.

Lemma carries_bind {A B} (ctx : list (string * Field)) (m : Tx A) (f : A -> Tx B) :
  Forall (carries ctx) (emitted m) ->
  (forall a, Forall (carries ctx) (emitted (f a))) ->
  Forall (carries ctx) (emitted (m ≫= f)).
Proof.
  intros Hm Hf. rewrite emitted_bind. apply Forall_app. split; [done|].
  destruct (result m); [apply Hf | constructor..].
Qed.

Lemma carries_Msg (ctx : list (string * Field)) (lg : Logger) (l : Z)
    (fields : list (string * Field)) (msg : string) :
  (exists more, context lg = ctx ++ more) ->
  Forall (carries ctx) (emitted (Msg lg l fields msg)).
Proof.
  intros [more Hctx]. unfold Msg. destruct (Enabled lg l); [|constructor].
  repeat constructor. exists (more ++ fields). by rewrite Hctx, app_assoc.
Qed.

Lemma carries_emit (ctx : list (string * Field)) (ev : Event) :
  carries ctx ev -> Forall (carries ctx) (emitted (emit ev)).
Proof. intros Hev. by repeat constructor. Qed.

Lemma carries_nothing {A} (ctx : list (string * Field)) (m : Tx A) :
  emitted m = [] -> Forall (carries ctx) (emitted m).
Proof. intros ->. constructor. Qed.

Lemma carries_with_span {A} (ctx : list (string * Field)) (name : string)
    (m : Tx A) :
  Forall (carries ctx) (emitted m) ->
  Forall (carries ctx) (emitted (with_span name m)).
Proof.
  destruct m as [w r]. cbn. intros Hw. constructor; [done|].
  apply Forall_app. split; [done|]. by repeat constructor.
Qed.

Lemma emitted_with_span {A} (name : string) (m : Tx A) :
  emitted (with_span name m) = SpanStart name :: emitted m ++ [SpanEnd].
Proof. by destruct m. Qed.

Ltac carries_steps :=
  repeat first
    [ apply carries_nothing; reflexivity
    | apply carries_emit; exact I
    | apply carries_Msg; cbn [With context call_log];
      first [ exists []; symmetry; apply app_nil_r
            | eexists; reflexivity ]
    | apply carries_bind; [|intros ?] ].

(** The fields every entry of a call starts with. *)
Lemma call_log_context (s : Service) (endpoint : string) :
  context (call_log s endpoint)
  = context (log s)
    ++ [("id", FHex rand_Int31); ("address", FStr (address s));
        ("endpoint", FStr endpoint)].
Proof. reflexivity. Qed.

(** X20. Every log entry [get2], [get] and [post] write starts with the
    fields of the service's logger followed by the call's [id], the
    service's [address] and the [endpoint]. *)
Theorem log_entries_carry_the_call (s : Service) (endpoint : string)
    (body : option Reader) (ev : Event) :
  ev ∈ emitted (get2 s endpoint) \/ ev ∈ emitted (get s endpoint) \/
  ev ∈ emitted (post s endpoint body) ->
  carries (context (log s)
           ++ [("id", FHex rand_Int31); ("address", FStr (address s));
               ("endpoint", FStr endpoint)]) ev.
Proof.
  rewrite <- call_log_context.
  set (ctx := context (call_log s endpoint)).
  assert (H2 : Forall (carries ctx) (emitted (get2 s endpoint))).
  { unfold get2. apply carries_with_span.
    apply carries_bind; [carries_steps|intros _].
    destruct (get2_request s endpoint) as [err|req]; [carries_steps|].
    apply carries_bind; [carries_steps|intros _].
    destruct (client s req) as [err|resp]; [carries_steps|].
    unfold get2_response, io_ReadAll.
    destruct (decide (StatusCode resp = StatusNotFound)); [carries_steps|].
    destruct (decide (StatusCode resp = StatusNoContent)); [carries_steps|].
    destruct (rd_err (Body resp)); [carries_steps|].
    destruct (decide (Z.quot (StatusCode resp) 100 <> 2)); [carries_steps|].
    destruct (populateContentType _ resp) as [res [err|]]; carries_steps;
      destruct (populateConsensusVersion _ resp) as [res' [err'|]]; carries_steps. }
  assert (H1 : Forall (carries ctx) (emitted (get s endpoint))).
  { unfold get, io_ReadAll.
    apply carries_bind; [carries_steps|intros _].
    destruct (get_request s endpoint) as [err|req]; [carries_steps|].
    destruct (client s req) as [err|resp]; [carries_steps|].
    destruct (decide _); [carries_steps|].
    destruct (rd_err (Body resp)); [carries_steps|].
    destruct (decide _); carries_steps. }
  assert (H3 : Forall (carries ctx) (emitted (post s endpoint body))).
  { unfold post, io_ReadAll. apply carries_bind.
    - unfold post_body, io_ReadAll. destruct (Enabled _ _); [|carries_steps].
      destruct body as [r|]; [|carries_steps].
      destruct (rd_err r); carries_steps.
    - intros body'.
      destruct (post_request s endpoint body') as [err|req]; [carries_steps|].
      destruct (client s req) as [err|resp]; [carries_steps|].
      destruct (rd_err (Body resp)); [carries_steps|].
      destruct (decide _); carries_steps. }
  rewrite Forall_forall in H1, H2, H3.
  intros [Hin|[Hin|Hin]]; auto.
Qed.

(** *** The entry of a failed GET *)

Lemma replace_from_delete (o : byte) (fuel : nat) (s : list byte) :
  (length s <= fuel)%nat ->
  replace_from fuel s o [] [] = filter (λ c, c <> o) s.
Proof.
  revert s. induction fuel as [|fuel IH]; intros s Hlen.
  - destruct s; [reflexivity | cbn in Hlen; lia].
  - destruct s as [|x s]; [reflexivity|].
    cbn [replace_from]. rewrite HasPrefix_one.
    cbn [length app]. rewrite drop_0. cbn [length] in Hlen.
    rewrite IH by lia.
    destruct (decide (x = o)) as [->|Hne].
    + rewrite bool_decide_eq_true_2 by done.
      by rewrite filter_cons_False by (intros Hne; by apply Hne).
    + rewrite bool_decide_eq_false_2 by done.
      by rewrite filter_cons_True by done.
Qed.

Lemma ReplaceAll_delete (o : byte) (s : list byte) :
  ReplaceAll s o [] [] = filter (λ c, c <> o) s.
Proof. unfold ReplaceAll. by apply replace_from_delete. Qed.

(** X21. What [get2] emits for a response outside 2xx, 404 apart, whose
    body is read, with a logger at debug level: the span is opened, the
    request is announced on it, the status is set on it, one debug entry
    "GET failed" is written with the status code and the body less its
    line feeds and carriage returns, and the span is closed. *)
Theorem get2_failure_events
    (s : Service) (endpoint : string) (resp : Response) :
  get2_receives s endpoint resp ->
  level (log s) = DebugLevel ->
  StatusCode resp <> StatusNotFound ->
  Z.quot (StatusCode resp) 100 <> 2 ->
  rd_err (Body resp) = None ->
  emitted (get2 s endpoint)
  = [ SpanStart "get2";
      SpanAddEvent "Sending request";
      SpanSetStatus "Error" "Status code %d" (StatusCode resp);
      Log DebugLevel
        (((context (log s)
           ++ [("id", FHex rand_Int31); ("address", FStr (address s));
               ("endpoint", FStr endpoint)])
          ++ [("status_code", FInt (StatusCode resp))])
         ++ [("status_code", FInt (StatusCode resp));
             ("response",
              FBytes (filter (λ c, c <> x0d)
                        (filter (λ c, c <> x0a) (rd_data (Body resp)))))])
        "GET failed";
      SpanEnd ].
Proof.
  intros (req & Hreq & Hresp) Hlvl H404 Hfam Hread.
  assert (H204 : StatusCode resp <> StatusNoContent).
  { intros E. rewrite E in Hfam. by apply Hfam. }
  assert (Hfirst :
    emitted (Msg (call_log s endpoint) TraceLevel [] "GET request") = []).
  { unfold Msg, Enabled. cbn [call_log With level]. rewrite Hlvl.
    by rewrite bool_decide_eq_false_2 by (unfold DebugLevel, TraceLevel; lia). }
  assert (Hlast :
    emitted (get2_response (call_log s endpoint) endpoint resp)
    = [ SpanSetStatus "Error" "Status code %d" (StatusCode resp);
        Log DebugLevel
          (((context (log s)
             ++ [("id", FHex rand_Int31); ("address", FStr (address s));
                 ("endpoint", FStr endpoint)])
            ++ [("status_code", FInt (StatusCode resp))])
           ++ [("status_code", FInt (StatusCode resp));
               ("response",
                FBytes (filter (λ c, c <> x0d)
                          (filter (λ c, c <> x0a) (rd_data (Body resp)))))])
          "GET failed" ]).
  { unfold get2_response, io_ReadAll.
    rewrite decide_False, decide_False, Hread, decide_True by done.
    rewrite emitted_bind, result_emit, emitted_bind, result_Msg.
    cbn [emitted emit fail fst app set_body body].
    rewrite !ReplaceAll_delete, app_nil_r. f_equal.
    unfold Msg, Enabled. cbn [With call_log level context].
    rewrite Hlvl, bool_decide_eq_true_2 by done. reflexivity. }
  unfold get2. rewrite emitted_with_span, emitted_bind, Hfirst, result_Msg, Hreq.
  lazy beta iota. rewrite emitted_bind, result_emit, Hresp.
  lazy beta iota. rewrite Hlast. reflexivity.
Qed.

End TransportLogs.

(** ** The address of a call *)
Section CallAddress.
Import HTTP.
Context `{Env}.

Lemma string_length_append (a b : string) :
  String.length (a +:+ b) = (String.length a + String.length b)%nat.
Proof.
  induction a as [|c a IH]; [done|].
  change (String c a +:+ b) with (String c (a +:+ b)). cbn. by rewrite IH.
Qed.

Lemma substring_all (a : string) : String.substring 0 (String.length a) a = a.
Proof. induction a as [|c a IH]; cbn; [done|]. by rewrite IH. Qed.

Lemma substring_prefix (a b : string) :
  String.substring 0 (String.length a) (a +:+ b) = a.
Proof.
  induction a as [|c a IH]; [by destruct b|].
  change (String c a +:+ b) with (String c (a +:+ b)). cbn. by rewrite IH.
Qed.

Lemma substring_suffix (a b : string) :
  String.substring (String.length a) (String.length b) (a +:+ b) = b.
Proof.
  induction a as [|c a IH]; [apply substring_all|].
  change (String c a +:+ b) with (String c (a +:+ b)). cbn. exact IH.
Qed.

(** A string is what it is up to a position, then what it is from there. *)
Lemma substring_split (a : string) (k : nat) :
  (k <= String.length a)%nat ->
  a = String.substring 0 k a
      +:+ String.substring k (String.length a - k) a.
Proof.
  revert k. induction a as [|c a IH]; intros k Hk.
  - cbn in Hk. by replace k with 0%nat by lia.
  - destruct k as [|k]; cbn.
    + by rewrite substring_all.
    + change (String c (String.substring 0 k a) +:+ ?t)
        with (String c (String.substring 0 k a +:+ t)).
      f_equal. apply IH. cbn in Hk. lia.
Qed.

Lemma HasSuffix_append (a suffix : string) : HasSuffix (a +:+ suffix) suffix = true.
Proof.
  unfold HasSuffix. rewrite string_length_append.
  replace (String.length a + String.length suffix - String.length suffix)%nat
    with (String.length a) by lia.
  rewrite substring_suffix, String.eqb_refl, andb_true_r.
  apply Nat.leb_le. lia.
Qed.

Lemma HasSuffix_inv (a suffix : string) :
  HasSuffix a suffix = true -> exists b, a = b +:+ suffix.
Proof.
  unfold HasSuffix. intros Hs. apply andb_prop in Hs as [Hle Heq].
  apply Nat.leb_le in Hle. apply String.eqb_eq in Heq.
  exists (String.substring 0 (String.length a - String.length suffix) a).
  pose proof (substring_split a (String.length a - String.length suffix)
                ltac:(lia)) as Hsplit.
  replace (String.length a - (String.length a - String.length suffix))%nat
    with (String.length suffix) in Hsplit by lia.
  by rewrite Heq in Hsplit.
Qed.

Lemma TrimSuffix_append (a suffix : string) : TrimSuffix (a +:+ suffix) suffix = a.
Proof.
  unfold TrimSuffix. rewrite HasSuffix_append, string_length_append.
  replace (String.length a + String.length suffix - String.length suffix)%nat
    with (String.length a) by lia.
  apply substring_prefix.
Qed.

(** X18. The address of a call is the base address followed by the
    endpoint, with one slash at the end of the base address left out: a
    base with a trailing slash and the same base without it give the same
    address, and a base that does not end in a slash is used as it is. *)
Theorem call_url_drops_one_trailing_slash
    (s : Service) (endpoint : string) :
  (forall b, URL_String (base s) = b +:+ "/" ->
             call_url s endpoint = b +:+ endpoint) /\
  ((forall b, URL_String (base s) <> b +:+ "/") ->
   call_url s endpoint = URL_String (base s) +:+ endpoint).
Proof.
  unfold call_url. split.
  - intros b ->. by rewrite TrimSuffix_append.
  - intros Hno. unfold TrimSuffix.
    destruct (HasSuffix (URL_String (base s)) "/") eqn:E; [|done].
    destruct (HasSuffix_inv _ _ E) as [b Hb]. by destruct (Hno b).
Qed.

End CallAddress.

(** ** [BeaconState], beyond the absent state *)

(** X22. [BeaconState] hands on what the dispatch returned: a state with
    no error, or the error with no state, never both; and the function it
    gives the dispatch never answers with a [nil] interface and no error,
    so that a [nil] result with no error is the dispatch's own. *)
Theorem BeaconState_hands_on_the_dispatch
    (VersionedBeaconState Service : Type)
    (doCall : Service ->
              (Multi.Client VersionedBeaconState ->
               Multi.outcome (Multi.iface VersionedBeaconState)) ->
              Multi.outcome (Multi.iface VersionedBeaconState))
    (s : Service) (stateID : string) :
  (forall state,
     doCall s (Multi.beaconStateCall VersionedBeaconState stateID)
       = Multi.Returns (Some (Multi.BeaconStatePtr VersionedBeaconState (Some state)))
           None <->
     Multi.BeaconState VersionedBeaconState Service doCall s stateID
       = Multi.Returns (Some state) None) /\
  (forall res err,
     doCall s (Multi.beaconStateCall VersionedBeaconState stateID)
       = Multi.Returns res (Some err) ->
     Multi.BeaconState VersionedBeaconState Service doCall s stateID
       = Multi.Returns None (Some err)) /\
  (forall v err,
     Multi.BeaconState VersionedBeaconState Service doCall s stateID
       = Multi.Returns v err ->
     v = None \/ err = None) /\
  (forall client,
     Multi.beaconStateCall VersionedBeaconState stateID client
       <> Multi.Returns None None).
Proof.
  unfold Multi.BeaconState. repeat split.
  - intros ->. reflexivity.
  - destruct (doCall s _) as [[[[p|]|t]|] [e|]|msg]; intros Heq;
      try discriminate; by injection Heq as ->.
  - intros res err ->. by destruct res as [[p|t]|].
  - intros v err.
    destruct (doCall s _) as [[[p|t]|] [e|]|msg]; intros Heq;
      try discriminate; injection Heq as <- <-; auto.
  - intros client. unfold Multi.beaconStateCall.
    destruct (Multi.asBeaconStateProvider _ client) as [provider|]; [|done].
    by destruct (provider stateID) as [st [e|]|msg].
Qed.

(** ** The further properties on the example values *)
Section MoreOnExamples.
Import HTTP Reference Examples.

Lemma service_answering_get_receives (lvl : Z) (resp : Response)
    (endpoint : string) :
  get_receives (service_answering lvl resp) endpoint resp.
Proof. eexists. split; reflexivity. Qed.

Lemma MarshalSSZ_has_SizeSSZ_bytes_witness :
  Z.of_nat (length (Deneb.MarshalSSZ some_sidecar).1) = 216.
Proof.
  apply (MarshalSSZ_has_SizeSSZ_bytes some_sidecar).
  unfold Deneb.valid; cbn; repeat split; lia.
Defined.

Lemma UnmarshalSSZ_decodes_every_216_bytes_witness :
  exists v, Deneb.valid v /\
    forall b, Deneb.valid b -> Deneb.UnmarshalSSZ b some_buffer = Some (v, None).
Proof. apply (UnmarshalSSZ_decodes_every_216_bytes some_buffer eq_refl). Defined.

Lemma MarshalSSZ_UnmarshalSSZ_witness :
  Deneb.MarshalSSZ zero_sidecar = (replicate 216 x00, None).
Proof.
  apply (MarshalSSZ_UnmarshalSSZ zero_sidecar zero_sidecar (replicate 216 x00));
    [unfold Deneb.valid; cbn; repeat split; lia | reflexivity].
Defined.

Lemma MarshalSSZ_injective_witness : some_sidecar = some_sidecar.
Proof.
  apply (MarshalSSZ_injective some_sidecar some_sidecar);
    [unfold Deneb.valid; cbn; repeat split; lia..|reflexivity].
Defined.

Lemma get_status_classification_witness :
  result (get (service_answering InfoLevel not_found) state_endpoint) = Ok None /\
  result (get (service_answering InfoLevel accepted) state_endpoint)
  = Ok (Some (bytes_NewReader (bytes_of "ok"))).
Proof.
  split.
  - apply (get_status_classification _ _ not_found
             (service_answering_get_receives _ _ _)). reflexivity.
  - apply (get_status_classification _ _ accepted
             (service_answering_get_receives _ _ _)); reflexivity.
Defined.

Lemma post_2xx_returns_body_witness :
  result (post (service_answering InfoLevel accepted) state_endpoint
            (Some readable_body))
  = Ok (bytes_NewReader (bytes_of "ok")).
Proof.
  apply (post_2xx_returns_body
           (service_answering InfoLevel accepted) state_endpoint
           (Some readable_body) accepted
           (service_answering_post_receives InfoLevel accepted state_endpoint
              readable_body eq_refl));
    reflexivity.
Defined.

Lemma post_reads_body_when_tracing_witness :
  result (post (service_answering TraceLevel accepted) state_endpoint None)
  = Panic "invalid memory address or nil pointer dereference" /\
  result (post (service_answering TraceLevel accepted) state_endpoint
            (Some failing_body))
  = Err (errors_New "failed to read request body").
Proof.
  destruct (post_reads_body_when_tracing
              (service_answering TraceLevel accepted) state_endpoint)
    as (Hnil & Hfail & _).
  split.
  - apply Hnil. cbn. lia.
  - apply (Hfail ltac:(cbn; lia) failing_body _ eq_refl).
Defined.

Lemma call_error_comes_from_a_response_witness :
  exists resp,
    get2_receives (service_answering InfoLevel server_error) state_endpoint resp /\
    StatusCode resp = 500 /\ rd_err (Body resp) = None /\
    rd_data (Body resp) = bytes_of "internal error".
Proof.
  apply (proj1 (call_error_comes_from_a_response
                  (service_answering InfoLevel server_error) state_endpoint
                  "GET" state_endpoint 500 (bytes_of "internal error"))).
  reflexivity.
Defined.

Lemma get2_envelope_is_of_a_response_witness :
  exists resp,
    get2_receives (service_answering InfoLevel ssz_with_version)
      state_endpoint resp /\
    200 = StatusCode resp.
Proof.
  destruct (get2_envelope_is_of_a_response
              (service_answering InfoLevel ssz_with_version) state_endpoint
              (ref_httpResponse 200 RefContentTypeSSZ RefDataVersionCapella
                 [x01; x02; x03]) eq_refl)
    as (resp & Hrecv & Hcode & _).
  exists resp. split; [exact Hrecv | exact Hcode].
Defined.

Lemma malformed_version_header_fails_witness :
  result (get2 (service_answering InfoLevel two_versions) state_endpoint)
  = Err (errors_Wrap (fmt_Errorf "malformed consensus version (%d entries)" 2)
           "failed to parse consensus version").
Proof.
  apply (proj2 (malformed_version_header_fails (H:=RefEnv) two_versions
                  ["capella"; "deneb"] eq_refl ltac:(discriminate))
           (service_answering InfoLevel two_versions) state_endpoint
           (service_answering_receives _ _ _)
           eq_refl ltac:(discriminate) eq_refl).
Defined.

Lemma unparseable_version_header_fails_witness :
  result (get2 (service_answering InfoLevel unknown_version) state_endpoint)
  = Err (errors_Wrap
           (errors_Wrap (errors_New "unrecognised data version")
              "failed to parse consensus version")
           "failed to parse consensus version").
Proof.
  apply (unparseable_version_header_fails
           (service_answering InfoLevel unknown_version) state_endpoint
           unknown_version "teapot" RefDataVersionUnknown
           (errors_New "unrecognised data version")
           (service_answering_receives _ _ _)
           eq_refl ltac:(discriminate) eq_refl eq_refl eq_refl).
Defined.

Lemma json_body_that_is_no_object_witness :
  result (get2 (service_answering InfoLevel html_body) state_endpoint)
  = Err (errors_Wrap
           (errors_Wrap syntax_error
              "no consensus version header and failed to parse response")
           "failed to parse consensus version").
Proof.
  apply (proj1 (json_body_that_is_no_object
                  (service_answering InfoLevel html_body) state_endpoint
                  html_body (service_answering_receives _ _ _)
                  eq_refl ltac:(discriminate) eq_refl eq_refl eq_refl)
           syntax_error eq_refl).
Defined.

Lemma get2_request_headers_witness :
  exists req,
    get2_request (service_with_headers InfoLevel accepted) state_endpoint
    = inr req /\
    (req_Header req !! "Accept"
     = Some ["application/octet-stream;q=1,application/json;q=0.9"]) /\
    "Bearer t" ∈ default [] (req_Header req !! "Authorization").
Proof.
  eexists. split; [reflexivity|].
  destruct (get2_request_headers
              (service_with_headers InfoLevel accepted) state_endpoint _ eq_refl)
    as (Hacc & _ & Hextra & _).
  split; [exact Hacc|].
  apply (Hextra "Authorization" "Bearer t").
  - apply list_elem_of_further, list_elem_of_here.
  - discriminate.
Defined.

Lemma post_request_headers_witness :
  exists req,
    post_request (service_with_headers InfoLevel accepted) state_endpoint
      (Some readable_body)
    = inr req /\
    req_Header req !! "Content-Type" = Some ["application/json"] /\
    req_Header req !! "Accept" = Some ["application/json"] /\
    req_Header req !! "User-Agent" = Some ["go-eth2-client/0.18.3"].
Proof.
  eexists. split; [reflexivity|].
  destruct (post_request_headers
              (service_with_headers InfoLevel accepted) state_endpoint
              (Some readable_body) _
              ltac:(discriminate) ltac:(discriminate) ltac:(discriminate)
              eq_refl)
    as (Hct & Hacc & _ & url & req0 & Hu & Hn & _ & Hua).
  split; [exact Hct|]. split; [exact Hacc|].
  injection Hu as <-. injection Hn as <-.
  apply Hua; [reflexivity|].
  intros k v Hin.
  apply elem_of_cons in Hin as [[= -> ->]|Hin]; [discriminate|].
  apply list_elem_of_singleton in Hin as [= -> ->]. discriminate.
Defined.

Lemma call_url_drops_one_trailing_slash_witness :
  call_url (service_answering InfoLevel accepted) state_endpoint
  = "http://localhost:5052/eth/v2/debug/beacon/states/head".
Proof.
  apply (proj1 (call_url_drops_one_trailing_slash
                  (service_answering InfoLevel accepted) state_endpoint)
           "http://localhost:5052" eq_refl).
Defined.

Lemma log_level_only_filters_witness :
  emitted (post (with_level WarnLevel (service_answering InfoLevel accepted))
             state_endpoint (Some readable_body))
  = List.filter (written_at WarnLevel)
      (emitted (post (with_level TraceLevel (service_answering InfoLevel accepted))
                  state_endpoint (Some readable_body))).
Proof.
  apply (proj2 (proj2 (log_level_only_filters
                         (service_answering InfoLevel accepted)
                         state_endpoint WarnLevel))
           readable_body eq_refl).
Defined.

Lemma log_entries_carry_the_call_witness :
  carries [("service", FStr "beacon"); ("id", FHex 0);
           ("address", FStr "http://localhost:5052");
           ("endpoint", FStr state_endpoint)]
    (Log TraceLevel
       [("service", FStr "beacon"); ("id", FHex 0);
        ("address", FStr "http://localhost:5052");
        ("endpoint", FStr state_endpoint)]
       "GET request").
Proof.
  apply (log_entries_carry_the_call
           (service_with_headers TraceLevel accepted) state_endpoint None).
  left. apply list_elem_of_further, list_elem_of_here.
Defined.

Lemma get2_failure_events_witness :
  emitted (get2 (service_answering DebugLevel server_error) state_endpoint)
  = [ SpanStart "get2"; SpanAddEvent "Sending request";
      SpanSetStatus "Error" "Status code %d" 500;
      Log DebugLevel
        [("id", FHex 0); ("address", FStr "http://localhost:5052");
         ("endpoint", FStr state_endpoint); ("status_code", FInt 500);
         ("status_code", FInt 500);
         ("response", FBytes (bytes_of "internal error"))]
        "GET failed";
      SpanEnd ].
Proof.
  apply (get2_failure_events
           (service_answering DebugLevel server_error) state_endpoint
           server_error (service_answering_receives _ _ _)
           eq_refl ltac:(discriminate) ltac:(discriminate) eq_refl).
Defined.

Lemma BeaconState_hands_on_the_dispatch_witness :
  Multi.BeaconState unit (Multi.Client unit) single_client_doCall
    client_with_state "head"
  = Multi.Returns (Some tt) None.
Proof.
  apply (proj1 (BeaconState_hands_on_the_dispatch unit (Multi.Client unit)
                  single_client_doCall client_with_state "head")
           tt).
  reflexivity.
Defined.

End MoreOnExamples.
